(** * Express auth backend: token service, auth middleware, ownership guard
      and password-reset flow

    A shallow embedding of
      - [backend/middleware/auth.js]            ([protect]),
      - [backend/controllers/postController.js] (post handlers),
      - [backend/controllers/userController.js] (user handlers, [generateJWT]),
      - [prisma/schema.prisma]                  (the two tables and their
                                                 constraints).

    An [async] handler is a computation over a [World] (the relational store,
    the mutable [req.user] slot and the trace of observable effects) that
    completes normally, throws, or leaves its function through [return].
    [try { .. } catch (e) { .. }] is [try_catch].  Hashing, HMAC and the
    base64url/JSON codec of the token payload are parameters of the
    development ([Primitives]); clock, salt, random bytes and the outcome of
    the mail transport come from an explicit [Env]. *)

From Stdlib Require Import String Ascii List ZArith Bool Lia.
From Stdlib Require Import Strings.Byte DecimalString.
Import ListNotations.
Local Open Scope string_scope.
Local Open Scope Z_scope.

Set Implicit Arguments.
Set Warnings "-register-all".

(* ------------------------------------------------------------------ *)
(** ** JavaScript values and string helpers *)

Module Js.

(** The JSON-like values that travel in request bodies and responses. *)
Inductive JValue : Type :=
| JUndefined
| JNull
| JBool (b : bool)
| JNum (z : Z)
| JStr (s : string)
| JObj (fields : list (string * JValue)).

(** [!v] is [negb (truthy v)]. *)
Definition truthy (v : JValue) : bool :=
  match v with
  | JUndefined | JNull => false
  | JBool b => b
  | JNum z => negb (z =? 0)
  | JStr s => negb (String.eqb s "")
  | JObj _ => true
  end.

(** Property lookup on an object literal; a missing key is [undefined]. *)
Fixpoint get (k : string) (o : list (string * JValue)) : JValue :=
  match o with
  | [] => JUndefined
  | (k', v) :: rest => if String.eqb k k' then v else get k rest
  end.

Definition keys (v : JValue) : list string :=
  match v with
  | JObj fs => map fst fs
  | _ => []
  end.

Definition opt_str (o : option string) : JValue :=
  match o with Some s => JStr s | None => JNull end.

Definition opt_num (o : option Z) : JValue :=
  match o with Some z => JNum z | None => JNull end.

(** [s.split(sep)] for a one-character separator. *)
Fixpoint split (sep : ascii) (s : string) : list string :=
  match s with
  | EmptyString => [EmptyString]
  | String c rest =>
      if Ascii.eqb c sep then EmptyString :: split sep rest
      else match split sep rest with
           | [] => [String c EmptyString]
           | x :: xs => String c x :: xs
           end
  end.

(** [s.startsWith(p)]. *)
Definition startsWith (s p : string) : bool := String.prefix p s.

(** [c] does not occur in [s]. *)
Fixpoint lacks (c : ascii) (s : string) : bool :=
  match s with
  | EmptyString => true
  | String d rest => negb (Ascii.eqb d c) && lacks c rest
  end.

(** *** [parseInt] on a path parameter.  [None] is [NaN]. *)

Definition is_space (c : ascii) : bool :=
  let n := nat_of_ascii c in
  (Nat.eqb n 32 || Nat.eqb n 9 || Nat.eqb n 10 || Nat.eqb n 13
   || Nat.eqb n 11 || Nat.eqb n 12)%bool.

Definition digit_of (c : ascii) : option Z :=
  let n := Z.of_nat (nat_of_ascii c) in
  if (48 <=? n) && (n <=? 57) then Some (n - 48) else None.

Definition hex_digit_of (c : ascii) : option Z :=
  let n := Z.of_nat (nat_of_ascii c) in
  if (48 <=? n) && (n <=? 57) then Some (n - 48)
  else if (97 <=? n) && (n <=? 102) then Some (n - 87)
  else if (65 <=? n) && (n <=? 70) then Some (n - 55)
  else None.

Fixpoint skip_spaces (s : string) : string :=
  match s with
  | String c rest => if is_space c then skip_spaces rest else s
  | EmptyString => s
  end.

(** Longest prefix of digits in the radix, accumulated left to right;
    [None] when there is no digit at all. *)
Fixpoint digits (radix : Z) (digit : ascii -> option Z) (acc : option Z)
         (s : string) : option Z :=
  match s with
  | EmptyString => acc
  | String c rest =>
      match digit c with
      | Some d =>
          digits radix digit
                 (Some (radix * match acc with Some a => a | None => 0 end + d))
                 rest
      | None => acc
      end
  end.

(** The number after the sign: hexadecimal after [0x] or [0X], decimal
    otherwise. *)
Definition magnitude (s : string) : option Z :=
  match s with
  | String "0"%char (String "x"%char rest) => digits 16 hex_digit_of None rest
  | String "0"%char (String "X"%char rest) => digits 16 hex_digit_of None rest
  | _ => digits 10 digit_of None s
  end.

Definition parseInt (s : string) : option Z :=
  match skip_spaces s with
  | String "-"%char rest => option_map Z.opp (magnitude rest)
  | String "+"%char rest => magnitude rest
  | t => magnitude t
  end.

End Js.

Import Js.

(* ------------------------------------------------------------------ *)
(** ** Effects *)

(** What a handler can throw. *)
Inductive Exn : Type :=
| PrismaKnownError (code : string)   (* PrismaClientKnownRequestError, [e.code] *)
| PrismaValidationError              (* malformed query arguments; no [code]   *)
| JsonWebTokenError                  (* malformed token or bad signature       *)
| TokenExpiredError
| BcryptIllegalArguments
| TypeError                          (* property access on null / undefined    *)
| MailError.

(** [e.code] of a caught exception. *)
Definition code (e : Exn) : option string :=
  match e with
  | PrismaKnownError c => Some c
  | _ => None
  end.

(** Observable effects of a handler, in program order. *)
Inductive Event : Type :=
| Next                                    (* next()                      *)
| NextErr (status : Z) (message : string) (* next(err)                   *)
| Respond (status : Z) (body : JValue)    (* res.status(s).json(body)    *)
| ConsoleError (e : Exn)                  (* console.error(e)            *)
| SendMail (to : JValue) (subject text : string). (* transporter.sendMail(..) *)

(* ------------------------------------------------------------------ *)
(** ** Cryptographic and codec primitives (external libraries) *)

(** Payload of a bearer token: [{ id, iat, exp }], times in seconds. *)
Record Claims : Type := mkClaims { c_id : Z; c_iat : Z; c_exp : Z }.

Class Primitives : Type := {
  (** HMAC-SHA256 of a signing input under a secret, base64url-encoded. *)
  hmac : string -> string -> string;
  (** base64url(JSON.stringify(payload)) and its partial inverse. *)
  encode_claims : Claims -> string;
  decode_claims : string -> option Claims;
  (** [bcrypt.hash(s, salt)] and [bcrypt.compare(s, hash)] on strings. *)
  bcrypt_hash : string -> string -> string;
  bcrypt_compare : string -> string -> bool
}.

(** Everything a request takes from outside the program. *)
Record Env : Type := mkEnv {
  JWT_SECRET : string;        (* process.env.JWT_SECRET                  *)
  now : Z;                    (* Date.now(), milliseconds                *)
  salt : string;              (* what bcrypt.genSalt(10) resolves to     *)
  entropy : nat -> byte;      (* the byte source behind crypto.randomBytes *)
  serial : Z;                 (* next value of the table's id sequence   *)
  mail_ok : bool              (* whether transporter.sendMail resolves   *)
}.

(* ------------------------------------------------------------------ *)
(** ** Token service: the [jsonwebtoken] calls the program makes

    [sign] and [verify] follow the library's documented behaviour on the
    compact serialisation [header.payload.signature]: HS256 over
    [header.payload], [iat] and [exp] in whole seconds, a token rejected
    from the second [exp] on.  A payload without a numeric [id] is treated
    as undecodable; in the program it would pass [verify] and make the
    lookup that follows throw inside the same [try]. *)

Module Jwt.
Section WithPrimitives.
Context {P : Primitives}.

Definition dot : ascii := "."%char.

(** base64url of [{"alg":"HS256","typ":"JWT"}]. *)
Definition header : string := "eyJhbGciOiJIUzI1NiIsInR5cCI6IkpXVCJ9".

(** ["30d"] in seconds. *)
Definition thirty_days : Z := 30 * 24 * 60 * 60.

(** [jwt.sign({ id }, secret, { expiresIn })] at clock [t] (seconds):
    the library adds [iat = t] and [exp = t + expiresIn]. *)
Definition sign (id : Z) (secret : string) (expiresIn : Z) (t : Z) : string :=
  let input := header ++ "." ++ encode_claims (mkClaims id t (t + expiresIn)) in
  input ++ "." ++ hmac secret input.

(** [jwt.verify(token, secret)] at clock [t] (seconds).  [token] is what
    the caller passes, possibly [undefined] ([None]). *)
Definition verify (token : option string) (secret : string) (t : Z)
  : Exn + Claims :=
  match token with
  | None => inl JsonWebTokenError                      (* jwt must be provided *)
  | Some tok =>
      if String.eqb tok "" then inl JsonWebTokenError  (* jwt must be provided *)
      else
        match split dot tok with
        | [h; p; s] =>
            match decode_claims p with
            | None => inl JsonWebTokenError            (* invalid token *)
            | Some c =>
                if String.eqb s (hmac secret (h ++ "." ++ p)) then
                  if c_exp c <=? t then inl TokenExpiredError
                  else inr c
                else inl JsonWebTokenError             (* invalid signature *)
            end
        | _ => inl JsonWebTokenError                   (* jwt malformed *)
        end
  end.

End WithPrimitives.
End Jwt.

(** [crypto.randomBytes(n)]. *)
Definition randomBytes (E : Env) (n : nat) : list byte :=
  map (entropy E) (seq 0 n).

(** One hexadecimal digit, lower case. *)
Definition hex_digit (n : N) : ascii :=
  (if n <? 10 then ascii_of_N (48 + n) else ascii_of_N (87 + n))%N.

(** [buf.toString("hex")]. *)
Fixpoint toHex (bs : list byte) : string :=
  match bs with
  | [] => EmptyString
  | b :: rest =>
      let n := Byte.to_N b in
      String (hex_digit (n / 16)) (String (hex_digit (n mod 16)) (toHex rest))
  end.

(** Inverse of [hex_digit] on its image. *)
Definition unhex_digit (c : ascii) : option N :=
  let n := N_of_ascii c in
  (if (48 <=? n) && (n <=? 57) then Some (n - 48)
   else if (97 <=? n) && (n <=? 102) then Some (n - 87)
   else None)%N.

(** [Buffer.from(s, "hex")], failing on a malformed string. *)
Fixpoint fromHex (s : string) : option (list byte) :=
  match s with
  | EmptyString => Some []
  | String hi (String lo rest) =>
      match unhex_digit hi, unhex_digit lo, fromHex rest with
      | Some h, Some l, Some bs =>
          match Byte.of_N (16 * h + l) with
          | Some b => Some (b :: bs)
          | None => None
          end
      | _, _, _ => None
      end
  | String _ EmptyString => None
  end.

(* ------------------------------------------------------------------ *)
(** ** The relational store ([prisma/schema.prisma]) *)

Module User.
Record t : Type := mk {
  id : Z;                                   (* Int @id @default(autoincrement()) *)
  email : string;                           (* String @unique                    *)
  username : string;                        (* String @db.VarChar(30) @unique    *)
  password : string;                        (* String                            *)
  passwordResetToken : option string;       (* String?                           *)
  passwordResetTokenExpiry : option Z       (* DateTime?, milliseconds           *)
}.
End User.

Module Post.
Record t : Type := mk {
  id : Z;                                   (* Int @id @default(autoincrement()) *)
  title : string;                           (* String @db.VarChar(255)           *)
  body : option string;                     (* String?                           *)
  created_by : Z;                           (* Int, foreign key to User          *)
  created_at : Z                            (* DateTime @default(now())          *)
}.

(** The row as [res.json] serialises it. *)
Definition json (p : t) : JValue :=
  JObj [("id", JNum (id p)); ("title", JStr (title p));
        ("body", opt_str (body p)); ("created_by", JNum (created_by p));
        ("created_at", JNum (created_at p))].
End Post.

(** [select: { id: true, username: true, email: true }]. *)
Module Identity.
Record t : Type := mk { id : Z; username : string; email : string }.
Definition of_user (u : User.t) : t :=
  mk (User.id u) (User.username u) (User.email u).
End Identity.

Record Db : Type := mkDb { users : list User.t; posts : list Post.t }.

Module Prisma.

(** A query either resolves to a value or rejects; either way it leaves a
    store behind. *)
Definition Query (A : Type) : Type := Db -> (Exn + A) * Db.

Definition P2000 := PrismaKnownError "P2000". (* value too long for column  *)
Definition P2002 := PrismaKnownError "P2002". (* unique constraint failed   *)
Definition P2025 := PrismaKnownError "P2025". (* required record not found  *)

(** Strings are held as the UTF-8 bytes of the program's strings.  A
    [VarChar(n)] column counts characters: the bytes that do not continue
    one.  Text is taken to be free of the NUL character, which PostgreSQL
    refuses in a text value and which this model does not single out. *)
Definition continuation (c : ascii) : bool :=
  let n := nat_of_ascii c in (Nat.leb 128 n && Nat.ltb n 192)%bool.

Fixpoint char_length (s : string) : nat :=
  match s with
  | EmptyString => 0%nat
  | String c rest => ((if continuation c then 0 else 1) + char_length rest)%nat
  end.

(** An [Int] argument must be a number (not [NaN]) that fits 32 bits; the
    client rejects the query otherwise. *)
Definition int4 (n : Z) : bool := (- 2 ^ 31 <=? n) && (n <? 2 ^ 31).

Definition int_arg (v : option Z) : option Z :=
  match v with
  | Some n => if int4 n then Some n else None
  | None => None
  end.

(** An optional [String?] field of a [data] object: [Some None] writes
    null, [Some (Some s)] writes [s], [None] is an invalid argument. *)
Definition nullable_str (v : JValue) : option (option string) :=
  match v with
  | JUndefined | JNull => Some None
  | JStr s => Some (Some s)
  | _ => None
  end.

Definition by_id (i : Z) (u : User.t) : bool := User.id u =? i.
Definition by_email (e : string) (u : User.t) : bool := String.eqb (User.email u) e.
Definition by_username (n : string) (u : User.t) : bool :=
  String.eqb (User.username u) n.
Definition post_by_id (i : Z) (p : Post.t) : bool := Post.id p =? i.

(** Rewrite the first row that satisfies [sel]. *)
Fixpoint update_first {A} (sel : A -> bool) (f : A -> A) (l : list A) : list A :=
  match l with
  | [] => []
  | x :: rest => if sel x then f x :: rest else x :: update_first sel f rest
  end.

(** Drop the first row that satisfies [sel]. *)
Fixpoint remove_first {A} (sel : A -> bool) (l : list A) : list A :=
  match l with
  | [] => []
  | x :: rest => if sel x then rest else x :: remove_first sel rest
  end.

(** *** user *)

(** [prisma.user.findUnique({ where: { id } })] with a numeric id. *)
Definition user_findUnique_id (i : Z) : Query (option User.t) :=
  fun d => (inr (find (by_id i) (users d)), d).

(** [prisma.user.findUnique({ where: { email } })]. *)
Definition user_findUnique_email (e : JValue) : Query (option User.t) :=
  fun d =>
    match e with
    | JStr e => (inr (find (by_email e) (users d)), d)
    | _ => (inl PrismaValidationError, d)
    end.

(** [prisma.user.findUnique({ where: { username } })]. *)
Definition user_findUnique_username (n : JValue) : Query (option User.t) :=
  fun d =>
    match n with
    | JStr n => (inr (find (by_username n) (users d)), d)
    | _ => (inl PrismaValidationError, d)
    end.

(** The [where] of the reset lookup: token equal, expiry [gte] the date. *)
Definition reset_matches (token : string) (date : Z) (u : User.t) : bool :=
  match User.passwordResetToken u, User.passwordResetTokenExpiry u with
  | Some t, Some e => String.eqb t token && (date <=? e)
  | _, _ => false
  end.

(** [prisma.user.findFirst({ where: { passwordResetToken: token,
      passwordResetTokenExpiry: { gte: date } } })]. *)
Definition user_findFirst_reset (token : string) (date : Z)
  : Query (option User.t) :=
  fun d => (inr (find (reset_matches token date) (users d)), d).

(** [prisma.user.create({ data: { username, email, password } })]; the new
    id is the sequence value [sid]. *)
Definition user_create (sid : Z) (username email : JValue) (password : string)
  : Query User.t :=
  fun d =>
    match username, email with
    | JStr n, JStr e =>
        if (30 <? Z.of_nat (char_length n)) then (inl P2000, d)
        else if existsb (by_id sid) (users d)
                || existsb (by_email e) (users d)
                || existsb (by_username n) (users d)
        then (inl P2002, d)
        else
          let u := User.mk sid e n password None None in
          (inr u, mkDb (users d ++ [u]) (posts d))
    | _, _ => (inl PrismaValidationError, d)
    end.

(** [prisma.user.update({ where, data })]: [sel] is the unique [where],
    [f] writes the [data] fields. *)
Definition user_update (sel : User.t -> bool) (f : User.t -> User.t)
  : Query User.t :=
  fun d =>
    match find sel (users d) with
    | Some u => (inr (f u), mkDb (update_first sel f (users d)) (posts d))
    | None => (inl P2025, d)
    end.

(** [update({ where: { email }, .. })] with the email taken from a body. *)
Definition user_update_email (e : JValue) (f : User.t -> User.t)
  : Query User.t :=
  fun d =>
    match e with
    | JStr e => user_update (by_email e) f d
    | _ => (inl PrismaValidationError, d)
    end.

(** *** post *)

(** [prisma.post.findUnique({ where: { id } })], [id] from [parseInt]. *)
Definition post_findUnique (i : option Z) : Query (option Post.t) :=
  fun d =>
    match int_arg i with
    | Some n => (inr (find (post_by_id n) (posts d)), d)
    | None => (inl PrismaValidationError, d)
    end.

(** [prisma.post.create({ data: { title, body,
      postAuthor: { connect: { id: author } } } })]. *)
Definition post_create (sid : Z) (created : Z) (title body : JValue) (author : Z)
  : Query Post.t :=
  fun d =>
    match title, nullable_str body with
    | JStr t, Some b =>
        if (255 <? Z.of_nat (char_length t)) then (inl P2000, d)
        else if negb (existsb (by_id author) (users d)) then (inl P2025, d)
        else if existsb (post_by_id sid) (posts d) then (inl P2002, d)
        else
          let p := Post.mk sid t b author created in
          (inr p, mkDb (users d) (posts d ++ [p]))
    | _, _ => (inl PrismaValidationError, d)
    end.

(** A required [String] column in the [data] of an update: a string or
    the field-update object [{ set: string }] writes it, [undefined] leaves
    it alone ([Some None]), anything else is an invalid argument
    ([None]). *)
Definition title_update (v : JValue) : option (option string) :=
  match v with
  | JUndefined => Some None
  | JStr t => Some (Some t)
  | JObj [(k, JStr t)] => if String.eqb k "set" then Some (Some t) else None
  | _ => None
  end.

(** A nullable [String?] column in the [data] of an update, which also
    takes [null] and [{ set: null }]. *)
Definition body_update (v : JValue) : option (option (option string)) :=
  match v with
  | JUndefined => Some None
  | JNull => Some (Some None)
  | JStr b => Some (Some (Some b))
  | JObj [(k, JStr b)] => if String.eqb k "set" then Some (Some (Some b)) else None
  | JObj [(k, JNull)] => if String.eqb k "set" then Some (Some None) else None
  | _ => None
  end.

(** Whether [data: { title, body }] is acceptable for the columns of
    [Post]. *)
Definition post_data_valid (title body : JValue) : bool :=
  match title_update title, body_update body with
  | Some _, Some _ => true
  | _, _ => false
  end.

(** Valid [data: { title, body }] written to a row. *)
Definition post_patch (title body : JValue) (p : Post.t) : Post.t :=
  Post.mk (Post.id p)
          (match title_update title with Some (Some t) => t | _ => Post.title p end)
          (match body_update body with Some (Some b) => b | _ => Post.body p end)
          (Post.created_by p) (Post.created_at p).

(** The title to write does not fit [VarChar(255)]. *)
Definition title_too_long (title : JValue) : bool :=
  match title_update title with
  | Some (Some t) => 255 <? Z.of_nat (char_length t)
  | _ => false
  end.

(** [prisma.post.update({ where: { id }, data: { title, body } })]. *)
Definition post_update (i : option Z) (title body : JValue) : Query Post.t :=
  fun d =>
    match int_arg i with
    | None => (inl PrismaValidationError, d)
    | Some n =>
        if negb (post_data_valid title body) then (inl PrismaValidationError, d)
        else
          match find (post_by_id n) (posts d) with
          | None => (inl P2025, d)
          | Some p =>
              if title_too_long title then (inl P2000, d)
              else
                (inr (post_patch title body p),
                 mkDb (users d)
                      (update_first (post_by_id n) (post_patch title body)
                                    (posts d)))
          end
    end.

(** [prisma.post.delete({ where: { id } })]. *)
Definition post_delete (i : option Z) : Query Post.t :=
  fun d =>
    match int_arg i with
    | None => (inl PrismaValidationError, d)
    | Some n =>
        match find (post_by_id n) (posts d) with
        | None => (inl P2025, d)
        | Some p =>
            (inr p, mkDb (users d) (remove_first (post_by_id n) (posts d)))
        end
    end.

(** [prisma.post.findMany({ where: { created_by } })], rows in table
    order. *)
Definition post_findMany (author : Z) : Query (list Post.t) :=
  fun d => (inr (filter (fun p => Post.created_by p =? author) (posts d)), d).

End Prisma.

(* ------------------------------------------------------------------ *)
(** ** Async handlers as computations *)

(** The part of the running system a handler can read and change.  [L] is
    the type of the handler's one [let] variable ([token], [post], [user]). *)
Record World (L : Type) : Type := mkWorld {
  db : Db;
  req_user : option Identity.t;   (* [req.user]; [None] is undefined or null *)
  trace : list Event;
  local : L
}.

(** How a block of statements ends. *)
Inductive Completion (A : Type) : Type :=
| Normal (a : A)
| Throw (e : Exn)
| Return.                         (* [return ..;] out of the handler *)
Arguments Normal {A} a.
Arguments Throw {A} e.
Arguments Return {A}.

Definition Async (L A : Type) : Type := World L -> Completion A * World L.

Section Monad.
Context {L : Type}.

Definition ret {A} (a : A) : Async L A := fun w => (Normal a, w).

Definition bind {A B} (m : Async L A) (k : A -> Async L B) : Async L B :=
  fun w =>
    match m w with
    | (Normal a, w') => k a w'
    | (Throw e, w') => (Throw e, w')
    | (Return, w') => (Return, w')
    end.

Definition throw {A} (e : Exn) : Async L A := fun w => (Throw e, w).

(** [return;] *)
Definition return_ {A} : Async L A := fun w => (Return, w).

(** [try { body } catch (e) { handler e }]. *)
Definition try_catch {A} (body : Async L A) (handler : Exn -> Async L A)
  : Async L A :=
  fun w =>
    match body w with
    | (Throw e, w') => handler e w'
    | r => r
    end.

Definition emit (ev : Event) : Async L unit :=
  fun w => (Normal tt, mkWorld (db w) (req_user w) (trace w ++ [ev]) (local w)).

(** [await] of a store query. *)
Definition await {A} (q : Prisma.Query A) : Async L A :=
  fun w =>
    match q (db w) with
    | (inr a, d) => (Normal a, mkWorld d (req_user w) (trace w) (local w))
    | (inl e, d) => (Throw e, mkWorld d (req_user w) (trace w) (local w))
    end.

(** A library call that returns or throws. *)
Definition lift {A} (r : Exn + A) : Async L A :=
  fun w => match r with inr a => (Normal a, w) | inl e => (Throw e, w) end.

(** Assignment to, and use of, the handler's [let] variable. *)
Definition assign (v : L) : Async L unit :=
  fun w => (Normal tt, mkWorld (db w) (req_user w) (trace w) v).
Definition read : Async L L := fun w => (Normal (local w), w).

Definition set_req_user (u : option Identity.t) : Async L unit :=
  fun w => (Normal tt, mkWorld (db w) u (trace w) (local w)).

(** [req.user.id]: a [TypeError] when [req.user] is null or undefined. *)
Definition req_user_id : Async L Z :=
  fun w =>
    match req_user w with
    | Some u => (Normal (Identity.id u), w)
    | None => (Throw TypeError, w)
    end.

Definition next : Async L unit := emit Next.
Definition next_err (status : Z) (message : string) : Async L unit :=
  emit (NextErr status message).
Definition res_json (status : Z) (body : JValue) : Async L unit :=
  emit (Respond status body).
Definition console_error (e : Exn) : Async L unit := emit (ConsoleError e).
End Monad.

Notation "x <- m ;; k" := (bind m (fun x => k))
  (at level 61, m at next level, right associativity).
Notation "m ;; k" := (bind m (fun _ => k))
  (at level 61, right associativity).

(** The request as the handlers read it. *)
Record Request : Type := mkRequest {
  authorization : option string;          (* req.headers.authorization *)
  params_id : string;                     (* req.params.id             *)
  params_token : string;                  (* req.params.token          *)
  req_body : list (string * JValue);      (* req.body                  *)
  protocol : string;                      (* req.protocol              *)
  host : string                           (* req.get("host")           *)
}.

(** A world with the given store, no identity attached, nothing observed,
    and the [let] variable still undefined. *)
Definition start {A} (d : Db) : World (option A) := mkWorld d None [] None.

(** The same, after the middleware attached [u]. *)
Definition start_as {A} (d : Db) (u : Identity.t) : World (option A) :=
  mkWorld d (Some u) [] None.

(** The calls of [next] in a trace, in order. *)
Definition next_calls (t : list Event) : list Event :=
  filter (fun ev => match ev with Next | NextErr _ _ => true | _ => false end) t.

(** The responses written in a trace, in order. *)
Definition responses (t : list Event) : list Event :=
  filter (fun ev => match ev with Respond _ _ => true | _ => false end) t.

Definition is_error (ev : Event) : bool :=
  match ev with NextErr _ _ => true | _ => false end.

(* ------------------------------------------------------------------ *)
(** ** [backend/middleware/auth.js] *)

Section Handlers.
Context {P : Primitives}.
Variable E : Env.

(** [Math.floor(Date.now() / 1000)], the clock [jsonwebtoken] reads. *)
Definition clock : Z := now E / 1000.

Definition protect (req : Request) : Async (option string) unit :=
  (match authorization req with
   | Some a =>
       if negb (String.eqb a "") && startsWith a "Bearer " then
         try_catch
           (assign (nth_error (split " "%char a) 1) ;;
            token <- read ;;
            decoded <- lift (Jwt.verify token (JWT_SECRET E) clock) ;;
            u <- await (Prisma.user_findUnique_id (c_id decoded)) ;;
            set_req_user (option_map Identity.of_user u) ;;
            next)
           (fun e =>
              console_error e ;;
              next_err 401 "Unauthorized")
       else ret tt
   | None => ret tt
   end) ;;
  token <- read ;;
  if negb (truthy (opt_str token)) then
    next_err 401 "Request is missing required authentication credential."
  else ret tt.

(* ---------------------------------------------------------------- *)
(** ** [backend/controllers/postController.js] *)

Definition asyncGetPost (req : Request) : Async (option Post.t) unit :=
  let id := parseInt (params_id req) in
  try_catch
    (p <- await (Prisma.post_findUnique id) ;;
     assign p ;;
     post <- read ;;
     match post with
     | None =>
         next_err 404 ("No post with id " ++ params_id req ++ " was found") ;;
         return_
     | Some p =>
         uid <- req_user_id ;;
         if negb (Post.created_by p =? uid) then
           next_err 401 "You are not authorized to view this post" ;;
           return_
         else ret tt
     end)
    (fun e => console_error e) ;;
  post <- read ;;
  res_json 200 (match post with Some p => Post.json p | None => JUndefined end).

Definition asyncCreatePost (req : Request) : Async (option Post.t) unit :=
  let title := get "title" (req_body req) in
  let body := get "body" (req_body req) in
  (if negb (truthy title) then
     next_err 404 "Please include a title field" ;;
     return_
   else ret tt) ;;
  try_catch
    (uid <- req_user_id ;;
     p <- await (Prisma.post_create (serial E) (now E) title body uid) ;;
     assign (Some p))
    (fun e => console_error e) ;;
  post <- read ;;
  res_json 201 (match post with Some p => Post.json p | None => JUndefined end).

Definition asyncUpdatePost (req : Request) : Async (option Post.t) unit :=
  let title := get "title" (req_body req) in
  let body := get "body" (req_body req) in
  let id := parseInt (params_id req) in
  try_catch
    (p <- await (Prisma.post_findUnique id) ;;
     assign p ;;
     post <- read ;;
     match post with
     | None =>
         next_err 404 ("No post with id " ++ params_id req ++ " was found") ;;
         return_
     | Some p =>
         uid <- req_user_id ;;
         if negb (Post.created_by p =? uid) then
           next_err 401 "You are not authorized to update this post" ;;
           return_
         else
           p' <- await (Prisma.post_update id title body) ;;
           assign (Some p')
     end)
    (fun e => console_error e) ;;
  post <- read ;;
  res_json 200 (match post with Some p => Post.json p | None => JUndefined end).

Definition asyncDeletePost (req : Request) : Async (option Post.t) unit :=
  let id := parseInt (params_id req) in
  try_catch
    (p <- await (Prisma.post_findUnique id) ;;
     assign p ;;
     post <- read ;;
     match post with
     | None =>
         next_err 404 ("No post with id " ++ params_id req ++ " was found") ;;
         return_
     | Some p =>
         uid <- req_user_id ;;
         if negb (Post.created_by p =? uid) then
           next_err 401 "You are not authorized to delete this post" ;;
           return_
         else
           p' <- await (Prisma.post_delete id) ;;
           assign (Some p')
     end)
    (fun e => console_error e) ;;
  res_json 204 JUndefined.

(* ---------------------------------------------------------------- *)
(** ** [backend/controllers/userController.js] *)

(** [bcrypt.hash(s, salt)]: rejects unless [s] is a string. *)
Definition hash (s : JValue) (slt : string) : Exn + string :=
  match s with
  | JStr s => inr (bcrypt_hash s slt)
  | _ => inl BcryptIllegalArguments
  end.

(** [bcrypt.compare(s, hash)]: rejects unless [s] is a string. *)
Definition compare (s : JValue) (h : string) : Exn + bool :=
  match s with
  | JStr s => inr (bcrypt_compare s h)
  | _ => inl BcryptIllegalArguments
  end.

(** [jwt.sign({ id }, process.env.JWT_SECRET, { expiresIn: "30d" })]. *)
Definition generateJWT (id : Z) : string :=
  Jwt.sign id (JWT_SECRET E) Jwt.thirty_days clock.

(** [utils/sendEmail.js]: hands the message to the transport, which
    resolves or rejects. *)
Definition asyncSendEmail {L} (to : JValue) (subject text : string)
  : Async L unit :=
  if mail_ok E then
    emit (SendMail to subject text)
  else throw MailError.

(** The body of the register and login responses. *)
Definition session_json (u : User.t) : JValue :=
  JObj [("id", JNum (User.id u)); ("username", JStr (User.username u));
        ("email", JStr (User.email u));
        ("token", JStr (generateJWT (User.id u)))].

Definition asyncRegisterUser (req : Request) : Async (option User.t) unit :=
  let username := get "username" (req_body req) in
  let email := get "email" (req_body req) in
  let password := get "password" (req_body req) in
  try_catch
    (let slt := salt E in
     hashedPassword <- lift (hash password slt) ;;
     u <- await (Prisma.user_create (serial E) username email hashedPassword) ;;
     assign (Some u))
    (fun e =>
       console_error e ;;
       if match code e with Some c => String.eqb c "P2002" | None => false end
       then next_err 400 "Email or username already exists." ;; return_
       else next_err 400 "Please include all fields." ;; return_) ;;
  user <- read ;;
  match user with
  | Some u => res_json 201 (session_json u)
  | None => throw TypeError
  end.

Definition asyncLoginUser (req : Request) : Async (option User.t) unit :=
  let username := get "username" (req_body req) in
  let password := get "password" (req_body req) in
  try_catch
    (u <- await (Prisma.user_findUnique_username username) ;;
     assign u ;;
     user <- read ;;
     ok <- match user with
           | Some u => lift (compare password (User.password u))
           | None => ret false
           end ;;
     match user, ok with
     | Some u, true => res_json 200 (session_json u) ;; return_
     | _, _ => next_err 401 "Couldn't find your account." ;; return_
     end)
    (fun e => console_error e).

Definition asyncGetUserData (req : Request) : Async (option User.t) unit :=
  uid <- req_user_id ;;
  u <- await (Prisma.user_findUnique_id uid) ;;
  match u with
  | Some u =>
      res_json 200 (JObj [("id", JNum (User.id u));
                          ("username", JStr (User.username u));
                          ("email", JStr (User.email u))])
  | None => throw TypeError
  end.

(** [data: { passwordResetToken, passwordResetTokenExpiry }]. *)
Definition set_reset (tok : string) (expiry : Z) (u : User.t) : User.t :=
  User.mk (User.id u) (User.email u) (User.username u) (User.password u)
          (Some tok) (Some expiry).

(** [data: { password, passwordResetToken: null,
             passwordResetTokenExpiry: null }]. *)
Definition set_password (hashed : string) (u : User.t) : User.t :=
  User.mk (User.id u) (User.email u) (User.username u) hashed None None.

Definition asyncForgotPassword (req : Request) : Async (option User.t) unit :=
  let email := get "email" (req_body req) in
  try_catch
    (user <- await (Prisma.user_findUnique_email email) ;;
     match user with
     | None => next_err 404 "Couldn't find your account." ;; return_
     | Some _ =>
         let resetToken := toHex (randomBytes E 32) in
         let resetTokenExpiry := now E + 1000 * 60 * 10 in
         await (Prisma.user_update_email email
                  (set_reset resetToken resetTokenExpiry)) ;;
         let resetLink :=
           protocol req ++ "://" ++ host req
             ++ "/api/v1/users/reset-password/" ++ resetToken in
         asyncSendEmail email "Password reset"
                        ("Password reset link: " ++ resetLink)
     end)
    (fun e => console_error e) ;;
  res_json 200 (JObj [("msg", JStr "Password reset link sent to your email.")]).

Definition asyncResetPassword (req : Request) : Async (option User.t) unit :=
  let token := params_token req in
  let newPassword := get "newPassword" (req_body req) in
  try_catch
    (user <- await (Prisma.user_findFirst_reset token (now E)) ;;
     match user with
     | None => next_err 400 "Invalid or expired token." ;; return_
     | Some u =>
         let slt := salt E in
         hashedPassword <- lift (hash newPassword slt) ;;
         await (Prisma.user_update (Prisma.by_id (User.id u))
                  (set_password hashedPassword)) ;;
         ret tt
     end)
    (fun e => console_error e) ;;
  res_json 200 (JObj [("msg", JStr "Password has been reset successfully.")]).

End Handlers.

(* ------------------------------------------------------------------ *)
(** ** [asyncGetAllPosts] and the routers *)

(** What [Math.max(0, isNaN(parseInt(q)) ? Infinity : parseInt(q))] can be. *)
Inductive Limit : Type := Finite (n : Z) | Infinity.

(** The limit computed from [req.query.limit]; [None] is an absent
    parameter, which [parseInt] reads as the string ["undefined"]. *)
Definition limit_of (q : option string) : Limit :=
  match parseInt (match q with Some s => s | None => "undefined" end) with
  | None => Infinity
  | Some n => Finite (Z.max 0 n)
  end.

(** [l.slice(0, limit)] for a limit that is not negative. *)
Definition slice0 {A} (l : list A) (limit : Limit) : list A :=
  match limit with
  | Infinity => l
  | Finite n => firstn (Z.to_nat n) l
  end.

(** An array as a value: the object of its indices. *)
Fixpoint indexed (i : nat) (items : list JValue) : list (string * JValue) :=
  match items with
  | [] => []
  | v :: rest => (NilZero.string_of_uint (Nat.to_uint i), v) :: indexed (S i) rest
  end.

Definition array (items : list JValue) : JValue := JObj (indexed 0 items).

(** [GET /posts]; [q] is [req.query.limit]. *)
Definition asyncGetAllPosts (q : option string) (req : Request)
  : Async (option (list Post.t)) unit :=
  let limit := limit_of q in
  try_catch
    (uid <- req_user_id ;;
     ps <- await (Prisma.post_findMany uid) ;;
     assign (Some ps))
    (fun e => console_error e) ;;
  posts <- read ;;
  match posts with
  | Some ps => res_json 200 (array (map Post.json (slice0 ps limit)))
  | None => throw TypeError          (* posts.slice on undefined *)
  end.

(** Whether a trace holds a call [next()]. *)
Definition called_next (t : list Event) : bool :=
  existsb (fun ev => match ev with Next => true | _ => false end) t.

(** A route registered as [router.METHOD(path, protect, handler)]
    ([routes/postRoutes.js], [routes/userRoutes.js]): [handler] runs, on the
    same request object, when [protect] called [next()].  [protect] does
    nothing observable after that call, so the handler's effects follow
    the middleware's. *)
Definition guarded {P : Primitives} (E : Env) {L : Type}
           (handler : Request -> Async (option L) unit) (req : Request) (d : Db)
  : Completion unit * World (option L) :=
  let r := protect E req (start d) in
  let w := snd r in
  if called_next (trace w)
  then handler req (mkWorld (db w) (req_user w) (trace w) None)
  else (fst r, mkWorld (db w) (req_user w) (trace w) None).

(* ------------------------------------------------------------------ *)
(** ** Vocabulary of the statements *)

(** *** Middleware *)

Definition missing_credential : Event :=
  NextErr 401 "Request is missing required authentication credential.".
Definition unauthorized : Event := NextErr 401 "Unauthorized".

(** The token the middleware extracts from a header that passed the
    scheme test. *)
Definition bearer_token (a : string) : option string :=
  nth_error (split " "%char a) 1.

(** Whether the header passes [authorization &&
    authorization.startsWith("Bearer ")]. *)
Definition has_scheme (req : Request) : bool :=
  match authorization req with
  | Some a => negb (String.eqb a "") && startsWith a "Bearer "
  | None => false
  end.

(** *** Ownership guard *)

(** The three guarded operations on one post. *)
Inductive PostOp : Type := GetPost | UpdatePost | DeletePost.

Definition post_handler (op : PostOp) : Request -> Async (option Post.t) unit :=
  match op with
  | GetPost => asyncGetPost
  | UpdatePost => asyncUpdatePost
  | DeletePost => asyncDeletePost
  end.

Definition not_found_message (req : Request) : string :=
  "No post with id " ++ params_id req ++ " was found".


(** Whether the store accepts [data: { title, body }] for an update. *)
Definition update_accepted (req : Request) : bool :=
  Prisma.post_data_valid (get "title" (req_body req)) (get "body" (req_body req))
  && negb (Prisma.title_too_long (get "title" (req_body req))).

(** What the owner's operation leaves in the store. *)
Definition owner_effect (op : PostOp) (req : Request) (n : Z) (d : Db) : Db :=
  match op with
  | GetPost => d
  | UpdatePost =>
      if update_accepted req then
        mkDb (users d)
             (Prisma.update_first (Prisma.post_by_id n)
                (Prisma.post_patch (get "title" (req_body req))
                                   (get "body" (req_body req)))
                (posts d))
      else d
  | DeletePost => mkDb (users d) (Prisma.remove_first (Prisma.post_by_id n) (posts d))
  end.

(** What the owner's operation answers. *)
Definition owner_response (op : PostOp) (req : Request) (p : Post.t) : Event :=
  match op with
  | GetPost => Respond 200 (Post.json p)
  | UpdatePost =>
      Respond 200
        (Post.json (if update_accepted req
                    then Prisma.post_patch (get "title" (req_body req))
                                           (get "body" (req_body req)) p
                    else p))
  | DeletePost => Respond 204 JUndefined
  end.





(** The status a handler answers with when it runs to its end. *)
Definition final_status (op : PostOp) : Z :=
  match op with DeletePost => 204 | _ => 200 end.


(** *** Registration *)


(** A body field names a value some row already has in the column [sel]
    tests. *)
Definition taken (sel : string -> User.t -> bool) (v : JValue) (d : Db) : bool :=
  match v with
  | JStr s => existsb (sel s) (users d)
  | _ => false
  end.

Definition conflict_message : string := "Email or username already exists.".

(** *** Login *)


(** *** Password reset *)

Definition invalid_or_expired : Event := NextErr 400 "Invalid or expired token.".

Section ResetVocabulary.
Variable E : Env.

Definition reset_sent : Event :=
  Respond 200 (JObj [("msg", JStr "Password reset link sent to your email.")]).
Definition reset_done : Event :=
  Respond 200 (JObj [("msg", JStr "Password has been reset successfully.")]).

(** The token and the expiry a reset request draws. *)
Definition resetToken : string := toHex (randomBytes E 32).
Definition resetTokenExpiry : Z := now E + 1000 * 60 * 10.

(** The link the mail carries. *)
Definition resetLink (req : Request) : string :=
  protocol req ++ "://" ++ host req ++ "/api/v1/users/reset-password/" ++ resetToken.

(** What the mail step leaves in the trace. *)
Definition mail_events (req : Request) (e : string) : list Event :=
  if mail_ok E
  then [SendMail (JStr e) "Password reset" ("Password reset link: " ++ resetLink req)]
  else [ConsoleError MailError].

End ResetVocabulary.

(** A row has a reset token exactly when it has a reset expiry. *)
Definition reset_paired (u : User.t) : Prop :=
  User.passwordResetToken u = None <-> User.passwordResetTokenExpiry u = None.

Definition reset_invariant (d : Db) : Prop := Forall reset_paired (users d).

(** The operations that write the [User] table, and the stores they lead to
    from the empty one. *)
Inductive CoreOp : Type := Register | RequestReset | CompleteReset.

Section CoreSteps.
Context {P : Primitives}.

Definition core_step (E : Env) (op : CoreOp) (req : Request) (d : Db) : Db :=
  match op with
  | Register => db (snd (asyncRegisterUser E req (start d)))
  | RequestReset => db (snd (asyncForgotPassword E req (start d)))
  | CompleteReset => db (snd (asyncResetPassword E req (start d)))
  end.

Inductive reachable : Db -> Prop :=
| reachable_empty : reachable (mkDb [] [])
| reachable_step (E : Env) (op : CoreOp) (req : Request) (d : Db) :
    reachable d -> reachable (core_step E op req d).

End CoreSteps.

(** *** Traces and stores *)

(** The same world with [t] observed beforehand. *)
Definition prepend {L} (t : list Event) (w : World L) : World L :=
  mkWorld (db w) (req_user w) (t ++ trace w) (local w).

(** A computation that neither reads the trace nor drops from it. *)
Definition trace_oblivious {L A} (m : Async L A) : Prop :=
  forall t w, m (prepend t w) = (fst (m w), prepend t (snd (m w))).

(** The key columns of the two tables hold no duplicates. *)
Definition keys_unique (d : Db) : Prop :=
  NoDup (map User.id (users d))
  /\ NoDup (map User.email (users d))
  /\ NoDup (map User.username (users d))
  /\ NoDup (map Post.id (posts d)).

(** Every post names a stored user as its author. *)
Definition posts_have_authors (d : Db) : Prop :=
  forall p, In p (posts d) -> In (Post.created_by p) (map User.id (users d)).

(** What an update must leave alone in a post. *)
Definition post_origin (p : Post.t) : Z * Z * Z :=
  (Post.id p, Post.created_by p, Post.created_at p).

(** A lower-case hexadecimal digit. *)
Definition is_hex (c : ascii) : bool :=
  let n := N_of_ascii c in
  (((48 <=? n) && (n <=? 57)) || ((97 <=? n) && (n <=? 102)))%N.

Fixpoint all_chars (f : ascii -> bool) (s : string) : bool :=
  match s with
  | EmptyString => true
  | String c rest => f c && all_chars f rest
  end.

(** Every handler that answers a request, with the request data it reads
    beside [req]. *)
Inductive Endpoint : Type :=
| GetAllPosts (q : option string)
| GetPostById
| CreatePost
| UpdatePostById
| DeletePostById
| RegisterUser
| LoginUser
| GetUserData
| ForgotPassword
| ResetPassword.

(** The routes registered with [protect] in front of the handler. *)
Definition protected (ep : Endpoint) : bool :=
  match ep with
  | RegisterUser | LoginUser | ForgotPassword | ResetPassword => false
  | _ => true
  end.

(** The store an endpoint's handler leaves.  A handler behind [protect]
    starts with whatever identity [who] the middleware stored; a public one
    starts with none. *)
Definition store_after {P : Primitives} (E : Env) (ep : Endpoint) (req : Request)
           (who : option Identity.t) (d : Db) : Db :=
  match ep with
  | GetAllPosts q => db (snd (asyncGetAllPosts q req (mkWorld d who [] None)))
  | GetPostById => db (snd (asyncGetPost req (mkWorld d who [] None)))
  | CreatePost => db (snd (asyncCreatePost E req (mkWorld d who [] None)))
  | UpdatePostById => db (snd (asyncUpdatePost req (mkWorld d who [] None)))
  | DeletePostById => db (snd (asyncDeletePost req (mkWorld d who [] None)))
  | GetUserData => db (snd (asyncGetUserData req (mkWorld d who [] None)))
  | RegisterUser => db (snd (asyncRegisterUser E req (start d)))
  | LoginUser => db (snd (asyncLoginUser E req (start d)))
  | ForgotPassword => db (snd (asyncForgotPassword E req (start d)))
  | ResetPassword => db (snd (asyncResetPassword E req (start d)))
  end.

(* ------------------------------------------------------------------ *)
(** ** A small executable instance of the primitives

    Used to run the handlers on concrete requests.  The codec prints the
    three numbers in decimal separated by [_]; the keyed checksum stands in
    for HMAC and prints a number, so neither contains a dot. *)

Module Toy.

Definition show (z : Z) : string := NilZero.string_of_int (Z.to_int z).

Definition parse (s : string) : option Z :=
  option_map Z.of_int (NilZero.int_of_string s).

Definition encode (c : Claims) : string :=
  show (c_id c) ++ "_" ++ show (c_iat c) ++ "_" ++ show (c_exp c).

Definition decode (s : string) : option Claims :=
  match split "_"%char s with
  | [a; b; c] =>
      match parse a, parse b, parse c with
      | Some a, Some b, Some c => Some (mkClaims a b c)
      | _, _, _ => None
      end
  | _ => None
  end.

Fixpoint checksum (acc : Z) (s : string) : Z :=
  match s with
  | EmptyString => acc
  | String c rest =>
      checksum ((acc * 31 + Z.of_nat (nat_of_ascii c)) mod 4294967296) rest
  end.

Definition mac (secret input : string) : string :=
  show (checksum 7 (secret ++ ":" ++ input)).

#[export] Instance primitives : Primitives := {|
  hmac := mac;
  encode_claims := encode;
  decode_claims := decode;
  bcrypt_hash := fun s slt => slt ++ "$" ++ s;
  bcrypt_compare := fun s h =>
    match split "$"%char h with
    | [_; s'] => String.eqb s s'
    | _ => false
    end
|}.

Definition env : Env :=
  mkEnv "s3cr3t" 1700000000000 "salt" (fun n => Byte.x2a) 10 true.

Definition alice : User.t := User.mk 1 "alice@example.com" "alice" "salt$pw" None None.
Definition bob : User.t := User.mk 2 "bob@example.com" "bob" "salt$hunter2" None None.

Definition post1 : Post.t := Post.mk 1 "hello" (Some "first") 1 1699999990000.
Definition post2 : Post.t := Post.mk 2 "bob's" None 2 1699999995000.

Definition store : Db := mkDb [alice; bob] [post1; post2].


Definition request (auth : option string) (id : string)
           (body : list (string * JValue)) : Request :=
  mkRequest auth id "" body "http" "localhost:8000".

End Toy.

(** A pending reset in the sample store: Bob asked five minutes before the
    token runs out. *)
Definition pending_store : Db :=
  mkDb [Toy.alice;
        User.mk 2 "bob@example.com" "bob" "salt$hunter2"
                (Some "c0ffee") (Some 1700000300000)]
       [Toy.post1; Toy.post2].

(** The sample clock thirty days on. *)
Definition thirty_days_later : Env :=
  mkEnv "s3cr3t" 1702592000000 "salt" (fun _ => Byte.x2a) 10 true.

(** The sample environment of a server with another secret. *)
Definition other_server : Env :=
  mkEnv "0th3r" 1700000000000 "salt" (fun _ => Byte.x2a) 10 true.

(** The sample environment five minutes, and ten minutes and a millisecond,
    after the sample clock, and one that draws other random bytes. *)
Definition five_minutes_later : Env :=
  mkEnv "s3cr3t" 1700000300000 "pepper" (fun _ => Byte.x2a) 11 true.

Definition too_late : Env :=
  mkEnv "s3cr3t" 1700000600001 "pepper" (fun _ => Byte.x2a) 11 true.

Definition second_draw : Env :=
  mkEnv "s3cr3t" 1700000100000 "salt" (fun _ => Byte.x2b) 11 true.

(* ================================================================== *)
(** * Properties *)

Unset Implicit Arguments.

(** ** Strings *)

Lemma append_assoc (a b c : string) : (a ++ b) ++ c = a ++ (b ++ c).
Proof.
  induction a as [|x a IH]; simpl; [reflexivity | now rewrite IH].
Qed.

Lemma split_lacks (c : ascii) (s : string) :
  lacks c s = true -> split c s = [s].
Proof.
  induction s as [|d s IH]; simpl; intros H; [reflexivity|].
  destruct (Ascii.eqb d c); [discriminate|].
  now rewrite (IH H).
Qed.

Lemma split_append (c : ascii) (s1 s2 : string) :
  lacks c s1 = true -> split c (s1 ++ String c s2) = s1 :: split c s2.
Proof.
  induction s1 as [|d s1 IH]; simpl; intros H.
  - now rewrite Ascii.eqb_refl.
  - destruct (Ascii.eqb d c); [discriminate|].
    now rewrite (IH H).
Qed.

Lemma split_nonempty (c : ascii) (s : string) : split c s <> [].
Proof.
  destruct s as [|d s]; simpl; [discriminate|].
  destruct (Ascii.eqb d c); [discriminate|].
  destruct (split c s); discriminate.
Qed.

Lemma prefix_append (p s : string) :
  String.prefix p s = true -> exists r, s = p ++ r.
Proof.
  revert s; induction p as [|x p IH]; intros s H.
  - now exists s.
  - destruct s as [|y s]; simpl in H; [discriminate|].
    destruct (ascii_dec x y) as [->|]; [|discriminate].
    destruct (IH _ H) as [r ->]. now exists r.
Qed.


(** ** Hex encoding of the reset token *)

Lemma toHex_length (bs : list byte) :
  String.length (toHex bs) = (2 * List.length bs)%nat.
Proof.
  induction bs as [|b bs IH]; simpl; [reflexivity | rewrite IH; lia].
Qed.

Lemma fromHex_cons (b : byte) (bs : list byte) :
  fromHex (toHex (b :: bs)) = option_map (cons b) (fromHex (toHex bs)).
Proof.
  destruct b; cbn; destruct (fromHex (toHex bs)); reflexivity.
Qed.

Lemma fromHex_toHex (bs : list byte) : fromHex (toHex bs) = Some bs.
Proof.
  induction bs as [|b bs IH]; [reflexivity|].
  rewrite fromHex_cons, IH. reflexivity.
Qed.

Lemma toHex_injective (bs bs' : list byte) : toHex bs = toHex bs' -> bs = bs'.
Proof.
  intros H. apply (f_equal fromHex) in H.
  rewrite !fromHex_toHex in H. congruence.
Qed.

Lemma randomBytes_length (E : Env) (n : nat) : List.length (randomBytes E n) = n.
Proof. unfold randomBytes. now rewrite length_map, length_seq. Qed.




(** ** Token service *)

Section TokenService.
Context {P : Primitives}.

(** The three segments of a signed token come back from [split]. *)
Lemma split_signed (h p s : string) :
  lacks Jwt.dot h = true -> lacks Jwt.dot p = true -> lacks Jwt.dot s = true ->
  split Jwt.dot ((h ++ "." ++ p) ++ "." ++ s) = [h; p; s].
Proof.
  intros Hh Hp Hs. rewrite append_assoc. cbn [append].
  rewrite (split_append _ _ _ Hh), (split_append _ _ _ Hp), (split_lacks _ _ Hs).
  reflexivity.
Qed.

(** [verify] on a token made by [sign] under the same secret: the payload
    until its expiry, [TokenExpiredError] from then on. *)
Lemma verify_sign (id : Z) (secret : string) (span t t' : Z) :
  let c := mkClaims id t (t + span) in
  decode_claims (encode_claims c) = Some c ->
  lacks Jwt.dot (encode_claims c) = true ->
  lacks Jwt.dot (hmac secret (Jwt.header ++ "." ++ encode_claims c)) = true ->
  Jwt.verify (Some (Jwt.sign id secret span t)) secret t'
  = if t + span <=? t' then inl TokenExpiredError else inr c.
Proof.
  intros c Hdec Hp Hs. unfold Jwt.verify, Jwt.sign. fold c.
  replace (String.eqb _ "") with false by reflexivity.
  rewrite (split_signed Jwt.header _ _ eq_refl Hp Hs), Hdec, String.eqb_refl.
  reflexivity.
Qed.

End TokenService.

Section TokenExpiry.
Context {P : Primitives}.
Variable E : Env.

(** Thirty days on the millisecond clock are thirty days on the token's
    clock of whole seconds. *)
Lemma clock_after_thirty_days (E' : Env) :
  now E + 30 * 24 * 60 * 60 * 1000 <= now E' ->
  clock E + Jwt.thirty_days <= clock E'.
Proof.
  intros H. unfold clock, Jwt.thirty_days.
  replace (now E / 1000 + 30 * 24 * 60 * 60)
    with ((now E + 30 * 24 * 60 * 60 * 1000) / 1000).
  - apply Z.div_le_mono; lia.
  - replace (now E + 30 * 24 * 60 * 60 * 1000)
      with (now E + (30 * 24 * 60 * 60) * 1000) by lia.
    rewrite Z.div_add by lia. reflexivity.
Qed.

(** C4.  A token issued by [generateJWT] for [uid] carries, as its payload
    segment, the claims [{ id: uid, iat, exp }] with [exp] thirty days
    after [iat]; verified at once under the same secret it yields those
    claims, hence [uid]; and verified at any clock thirty days or more
    after issuance it is rejected as expired.  The codec and the MAC are
    parameters: the payload must decode to itself and neither segment may
    contain the separator. *)
Theorem generateJWT_verify_roundtrip_expiry (uid : Z) :
  let c := mkClaims uid (clock E) (clock E + 30 * 24 * 60 * 60) in
  decode_claims (encode_claims c) = Some c ->
  lacks Jwt.dot (encode_claims c) = true ->
  lacks Jwt.dot (hmac (JWT_SECRET E) (Jwt.header ++ "." ++ encode_claims c))
    = true ->
  Jwt.verify (Some (generateJWT E uid)) (JWT_SECRET E) (clock E) = inr c
  /\ c_id c = uid
  /\ nth_error (split Jwt.dot (generateJWT E uid)) 1 = Some (encode_claims c)
  /\ c_exp c - c_iat c = 30 * 24 * 60 * 60
  /\ (forall E' : Env,
        JWT_SECRET E' = JWT_SECRET E ->
        now E + 30 * 24 * 60 * 60 * 1000 <= now E' ->
        Jwt.verify (Some (generateJWT E uid)) (JWT_SECRET E') (clock E')
        = inl TokenExpiredError).
Proof.
  intros c Hdec Hp Hs.
  pose proof (fun t' => verify_sign uid (JWT_SECRET E) Jwt.thirty_days
                          (clock E) t' Hdec Hp Hs) as V.
  repeat split.
  - unfold generateJWT. rewrite V.
    destruct (Z.leb_spec (clock E + Jwt.thirty_days) (clock E));
      [unfold Jwt.thirty_days in *; lia | reflexivity].
  - unfold generateJWT, Jwt.sign.
    change (mkClaims uid (clock E) (clock E + Jwt.thirty_days)) with c.
    rewrite (split_signed Jwt.header _ _ eq_refl Hp Hs). reflexivity.
  - simpl. lia.
  - intros E' Hk Hlate. rewrite Hk. unfold generateJWT. rewrite V.
    pose proof (clock_after_thirty_days E' Hlate) as Hc.
    destruct (Z.leb_spec (clock E + Jwt.thirty_days) (clock E'));
      [reflexivity | lia].
Qed.

End TokenExpiry.

(** ** Auth middleware *)

Ltac run_async :=
  unfold bind, try_catch, ret, return_, throw, emit, await, lift, assign, read,
    set_req_user, req_user_id, next, next_err, res_json, console_error, start,
    start_as in *;
  cbn [db req_user trace local fst snd] in *.

Section Middleware.
Context {P : Primitives}.
Variable E : Env.

(** No header, or another scheme: one error, nothing else. *)
Lemma protect_no_scheme (req : Request) (d : Db) :
  has_scheme req = false ->
  protect E req (start d)
  = (Normal tt, mkWorld d None [missing_credential] None).
Proof.
  unfold has_scheme, protect. intros H.
  destruct (authorization req) as [a|]; [rewrite H|]; reflexivity.
Qed.

(** A header with the scheme whose token verifies: the looked-up row,
    projected, becomes [req.user] and the downstream handler runs, whether
    or not a row was found. *)
Lemma protect_verified (req : Request) (d : Db) (a tok : string) (c : Claims) :
  authorization req = Some a ->
  has_scheme req = true ->
  bearer_token a = Some tok ->
  Jwt.verify (Some tok) (JWT_SECRET E) (clock E) = inr c ->
  protect E req (start d)
  = (Normal tt,
     mkWorld d (option_map Identity.of_user
                  (find (Prisma.by_id (c_id c)) (users d)))
             [Next] (Some tok)).
Proof.
  unfold has_scheme, protect, bearer_token. intros Ha Hs Ht Hv.
  rewrite Ha in *. rewrite Hs. run_async. rewrite Ht, Hv.
  unfold Prisma.user_findUnique_id. cbn.
  destruct tok as [|x tok]; [|reflexivity].
  cbn in Hv. discriminate.
Qed.

(** A header with the scheme whose token is rejected. *)
Lemma protect_rejected (req : Request) (d : Db) (a : string) (e : Exn) :
  authorization req = Some a ->
  has_scheme req = true ->
  Jwt.verify (bearer_token a) (JWT_SECRET E) (clock E) = inl e ->
  protect E req (start d)
  = (Normal tt,
     mkWorld d None
             ([ConsoleError e; unauthorized]
                ++ if truthy (opt_str (bearer_token a)) then []
                   else [missing_credential])
             (bearer_token a)).
Proof.
  unfold has_scheme, protect, bearer_token. intros Ha Hs Hv.
  rewrite Ha in *. rewrite Hs. run_async. rewrite Hv. cbn.
  destruct (truthy _); reflexivity.
Qed.

(** Every run of the middleware ends in one of four traces of [next]
    calls. *)
Lemma protect_next_calls (req : Request) (d : Db) :
  let t := next_calls (trace (snd (protect E req (start d)))) in
  t = [Next] \/ t = [unauthorized] \/ t = [missing_credential]
  \/ (t = [unauthorized; missing_credential]
      /\ has_scheme req = true
      /\ exists a, authorization req = Some a
                   /\ truthy (opt_str (bearer_token a)) = false).
Proof.
  cbv zeta.
  destruct (has_scheme req) eqn:Hs.
  - assert (exists a, authorization req = Some a) as [a Ha].
    { unfold has_scheme in Hs. destruct (authorization req); [eauto|discriminate]. }
    destruct (Jwt.verify (bearer_token a) (JWT_SECRET E) (clock E)) as [e|c] eqn:Hv.
    + rewrite (protect_rejected req d a e Ha Hs Hv).
      destruct (truthy (opt_str (bearer_token a))) eqn:Ht.
      * right; left; reflexivity.
      * right; right; right. repeat split; eauto.
    + destruct (bearer_token a) as [tok|] eqn:Hb; [|discriminate].
      rewrite (protect_verified req d a tok c Ha Hs Hb Hv). left; reflexivity.
  - rewrite (protect_no_scheme req d Hs). right; right; left; reflexivity.
Qed.

(** The downstream handler and an error never both occur in one run, and
    one of the two always does. *)
Lemma protect_downstream_xor_error (req : Request) (d : Db) :
  let t := next_calls (trace (snd (protect E req (start d)))) in
  (In Next t /\ existsb is_error t = false)
  \/ (~ In Next t /\ existsb is_error t = true).
Proof.
  cbv zeta.
  destruct (protect_next_calls req d) as [H|[H|[H|[H _]]]]; rewrite H; cbn.
  - left; split; [now left | reflexivity].
  - right; split; [intros [X|[]]; discriminate X | reflexivity].
  - right; split; [intros [X|[]]; discriminate X | reflexivity].
  - right; split; [intros [X|[X|[]]]; discriminate X | reflexivity].
Qed.

(** [next] is called exactly once unless the header has the scheme and
    the extracted token is empty or absent. *)
Lemma protect_calls_next_once (req : Request) (d : Db) :
  (forall a, authorization req = Some a -> has_scheme req = true ->
             truthy (opt_str (bearer_token a)) = true) ->
  List.length (next_calls (trace (snd (protect E req (start d))))) = 1%nat.
Proof.
  intros Htok.
  destruct (protect_next_calls req d) as [H|[H|[H|[H [Hs [a [Ha Ht]]]]]]];
    try (rewrite H; reflexivity).
  rewrite (Htok a Ha Hs) in Ht. discriminate.
Qed.

(** C2.  On a request whose Authorization header is the bare string
    ["Bearer "], and likewise on one whose header has a second space after
    the scheme (["Bearer  ..."]), the extracted token is the empty string:
    verification throws, the [catch] block propagates Unauthorized, and the
    test [!token] after the [if] block then propagates the
    missing-credential error as well.  The middleware calls [next] twice on
    such a request, not once. *)
Theorem protect_empty_token_calls_next_twice
        (d : Db) (rest pid ptok : string) (body : list (string * JValue))
        (proto hst : string) :
  let bare := mkRequest (Some "Bearer ") pid ptok body proto hst in
  let spaced := mkRequest (Some ("Bearer  " ++ rest)) pid ptok body proto hst in
  let twice := [ConsoleError JsonWebTokenError; unauthorized; missing_credential] in
  protect E bare (start d) = (Normal tt, mkWorld d None twice (Some ""))
  /\ protect E spaced (start d) = (Normal tt, mkWorld d None twice (Some ""))
  /\ next_calls (trace (snd (protect E bare (start d))))
     = [unauthorized; missing_credential]
  /\ next_calls (trace (snd (protect E spaced (start d))))
     = [unauthorized; missing_credential]
  /\ List.length (next_calls (trace (snd (protect E bare (start d))))) = 2%nat
  /\ List.length (next_calls (trace (snd (protect E spaced (start d))))) = 2%nat.
Proof.
  cbv zeta.
  assert (protect E (mkRequest (Some "Bearer ") pid ptok body proto hst) (start d)
          = (Normal tt,
             mkWorld d None
               [ConsoleError JsonWebTokenError; unauthorized; missing_credential]
               (Some ""))) as Hbare by reflexivity.
  assert (protect E (mkRequest (Some ("Bearer  " ++ rest)) pid ptok body proto hst)
                  (start d)
          = (Normal tt,
             mkWorld d None
               [ConsoleError JsonWebTokenError; unauthorized; missing_credential]
               (Some ""))) as Hspaced.
  { unfold protect. cbn [authorization]. run_async.
    replace (negb (String.eqb ("Bearer  " ++ rest) "")
             && startsWith ("Bearer  " ++ rest) "Bearer ") with true
      by (cbn; now destruct rest).
    replace (nth_error (split " "%char ("Bearer  " ++ rest)) 1) with (Some "")
      by (cbn; now destruct (split " "%char rest)).
    reflexivity. }
  rewrite Hbare, Hspaced. cbn. repeat split.
Qed.

(** C3.  A token that verifies but names a user with no row: the lookup
    resolves to null, null is stored in [req.user], and the middleware
    calls [next()]: the downstream handler runs with no identity and no
    error is propagated. *)
Theorem protect_missing_subject_proceeds
        (req : Request) (d : Db) (a tok : string) (c : Claims) :
  authorization req = Some a ->
  has_scheme req = true ->
  bearer_token a = Some tok ->
  Jwt.verify (Some tok) (JWT_SECRET E) (clock E) = inr c ->
  find (Prisma.by_id (c_id c)) (users d) = None ->
  protect E req (start d) = (Normal tt, mkWorld d None [Next] (Some tok))
  /\ req_user (snd (protect E req (start d))) = None
  /\ next_calls (trace (snd (protect E req (start d)))) = [Next].
Proof.
  intros Ha Hs Hb Hv Hfind.
  rewrite (protect_verified req d a tok c Ha Hs Hb Hv), Hfind.
  repeat split.
Qed.

(** What the downstream handler of [GET /posts/:id] then does with the
    null identity: [req.user.id] throws inside the [try], the [catch]
    logs, and the post is sent. *)
Lemma asyncGetPost_without_identity (req : Request) (d : Db) (n : Z) (p : Post.t) :
  Prisma.int_arg (parseInt (params_id req)) = Some n ->
  find (Prisma.post_by_id n) (posts d) = Some p ->
  asyncGetPost req (start d)
  = (Normal tt,
     mkWorld d None [ConsoleError TypeError; Respond 200 (Post.json p)] (Some p)).
Proof.
  intros Hn Hp. unfold asyncGetPost, Prisma.post_findUnique. run_async.
  rewrite Hn, Hp. reflexivity.
Qed.

End Middleware.

(** The missing-subject run on a concrete store: a token for user 7, whom the
    store does not hold. *)
Lemma protect_missing_subject_witness :
  let P := Toy.primitives in
  let req := Toy.request (Some ("Bearer " ++ generateJWT Toy.env 7)) "" [] in
  protect Toy.env req (start Toy.store)
  = (Normal tt, mkWorld Toy.store None [Next] (Some (generateJWT Toy.env 7)))
  /\ req_user (snd (protect Toy.env req (start Toy.store))) = None
  /\ next_calls (trace (snd (protect Toy.env req (start Toy.store)))) = [Next].
Proof.
  intros P req.
  apply (protect_missing_subject_proceeds Toy.env req
           Toy.store ("Bearer " ++ generateJWT Toy.env 7)
           (generateJWT Toy.env 7) (mkClaims 7 1700000000 1702592000));
    vm_compute; reflexivity.
Defined.

(** Issue and verify on the concrete instance, user 1. *)
Lemma generateJWT_verify_witness :
  let P := Toy.primitives in
  let c := mkClaims 1 (clock Toy.env) (clock Toy.env + 30 * 24 * 60 * 60) in
  Jwt.verify (Some (generateJWT Toy.env 1)) (JWT_SECRET Toy.env) (clock Toy.env)
  = inr c
  /\ c_id c = 1
  /\ nth_error (split Jwt.dot (generateJWT Toy.env 1)) 1 = Some (encode_claims c)
  /\ c_exp c - c_iat c = 30 * 24 * 60 * 60
  /\ (forall E' : Env,
        JWT_SECRET E' = JWT_SECRET Toy.env ->
        now Toy.env + 30 * 24 * 60 * 60 * 1000 <= now E' ->
        Jwt.verify (Some (generateJWT Toy.env 1)) (JWT_SECRET E') (clock E')
        = inl TokenExpiredError).
Proof.
  intros P.
  apply (generateJWT_verify_roundtrip_expiry Toy.env 1); vm_compute; reflexivity.
Defined.

(** ** Ownership guard of the post handlers *)

Section OwnershipGuard.
Variables (req : Request) (d : Db) (u : Identity.t) (n : Z).
Hypothesis Hid : Prisma.int_arg (parseInt (params_id req)) = Some n.



Lemma guard_owner (op : PostOp) (p : Post.t) :
  find (Prisma.post_by_id n) (posts d) = Some p ->
  Post.created_by p = Identity.id u ->
  let w := snd (post_handler op req (start_as d u)) in
  fst (post_handler op req (start_as d u)) = Normal tt
  /\ next_calls (trace w) = []
  /\ responses (trace w) = [owner_response op req p]
  /\ db w = owner_effect op req n d.
Proof.
  intros Hp Heq. apply Z.eqb_eq in Heq.
  destruct op; unfold post_handler, asyncGetPost, asyncUpdatePost,
    asyncDeletePost, Prisma.post_findUnique, Prisma.post_update,
    Prisma.post_delete, owner_response, owner_effect, update_accepted;
    run_async; rewrite Hid, Hp; cbn; rewrite Heq; cbn.
  - repeat split.
  - rewrite ?Hid.
    destruct (Prisma.post_data_valid _ _); cbn; [|repeat split].
    rewrite ?Hp.
    destruct (Prisma.title_too_long _); cbn; repeat split.
  - rewrite ?Hid, ?Hp. cbn. repeat split.
Qed.

End OwnershipGuard.







Section MalformedId.
Variables (req : Request) (d : Db) (u : Identity.t).
Hypothesis Hid : Prisma.int_arg (parseInt (params_id req)) = None.

Lemma guard_malformed (op : PostOp) :
  post_handler op req (start_as d u)
  = (Normal tt,
     mkWorld d (Some u)
             [ConsoleError PrismaValidationError;
              Respond (final_status op) JUndefined]
             None).
Proof.
  destruct op; unfold post_handler, asyncGetPost, asyncUpdatePost,
    asyncDeletePost, Prisma.post_findUnique; run_async;
    rewrite Hid; reflexivity.
Qed.

End MalformedId.

(** C1.  Get, update and delete do not answer every id without a post
    with 404.  When the path parameter is one that [parseInt] turns into no
    32-bit integer (not a number, or out of range), so that no post has
    that id, the lookup itself throws; the handler's [catch] logs the error
    and does not return, and the handler runs on to its last line: it
    completes normally, hands no error to [next], and answers 200 (get,
    update) or 204 (delete) with no body.  The store is left as it was. *)
Theorem malformed_id_is_answered_as_success
        (op : PostOp) (req : Request) (d : Db) (u : Identity.t) :
  Prisma.int_arg (parseInt (params_id req)) = None ->
  let r := post_handler op req (start_as d u) in
  (forall p, In p (posts d) -> Prisma.int4 (Post.id p) = true ->
             parseInt (params_id req) <> Some (Post.id p))
  /\ fst r = Normal tt
  /\ trace (snd r) = [ConsoleError PrismaValidationError;
                      Respond (final_status op) JUndefined]
  /\ next_calls (trace (snd r)) = []
  /\ (forall m, ~ In (NextErr 404 m) (trace (snd r)))
  /\ db (snd r) = d.
Proof.
  intros Hid r. subst r. rewrite (guard_malformed req d u Hid op).
  cbn [fst snd trace db].
  split.
  { intros p _ H4 Hp. rewrite Hp in Hid. cbn [Prisma.int_arg] in Hid.
    rewrite H4 in Hid. discriminate. }
  split; [reflexivity|]. split; [reflexivity|]. split; [reflexivity|].
  split; [|reflexivity].
  intros m [H|[H|[]]]; discriminate.
Qed.

(** Alice asks for the post [abc], and asks to delete the post
    [2147483648], in the sample store. *)
Lemma malformed_id_witness :
  let u := Identity.of_user Toy.alice in
  let r := post_handler GetPost (Toy.request None "abc" []) (start_as Toy.store u) in
  let r' := post_handler DeletePost (Toy.request None "2147483648" [])
                         (start_as Toy.store u) in
  (fst r = Normal tt
   /\ trace (snd r) = [ConsoleError PrismaValidationError; Respond 200 JUndefined]
   /\ db (snd r) = Toy.store)
  /\ (fst r' = Normal tt
      /\ trace (snd r') = [ConsoleError PrismaValidationError; Respond 204 JUndefined]
      /\ db (snd r') = Toy.store).
Proof.
  intros u r r'. split.
  - destruct (malformed_id_is_answered_as_success GetPost
                (Toy.request None "abc" []) Toy.store u eq_refl)
      as [_ [H1 [H2 [_ [_ H3]]]]].
    split; [exact H1|]. split; [exact H2|exact H3].
  - destruct (malformed_id_is_answered_as_success DeletePost
                (Toy.request None "2147483648" []) Toy.store u eq_refl)
      as [_ [H1 [H2 [_ [_ H3]]]]].
    split; [exact H1|]. split; [exact H2|exact H3].
Defined.



(** ** Creating a post *)

Section CreatePost.
Variable E : Env.

(** C8.  A create request whose [title] is missing (or otherwise falsy)
    creates no post and writes no response; the error the handler propagates
    carries status 404. *)
Theorem asyncCreatePost_missing_title_is_404
        (req : Request) (d : Db) (u : Identity.t) :
  truthy (get "title" (req_body req)) = false ->
  asyncCreatePost E req (start_as d u)
  = (Return, mkWorld d (Some u) [NextErr 404 "Please include a title field"] None).
Proof.
  intros Ht. unfold asyncCreatePost. run_async. rewrite Ht. reflexivity.
Qed.

(** With a title the store accepts, the post is created for the caller and
    answered with 201. *)
Lemma asyncCreatePost_created (req : Request) (d : Db) (u : Identity.t) (p : Post.t) (d' : Db) :
  truthy (get "title" (req_body req)) = true ->
  Prisma.post_create (serial E) (now E) (get "title" (req_body req))
                     (get "body" (req_body req)) (Identity.id u) d = (inr p, d') ->
  asyncCreatePost E req (start_as d u)
  = (Normal tt, mkWorld d' (Some u) [Respond 201 (Post.json p)] (Some p)).
Proof.
  intros Ht Hc. unfold asyncCreatePost. run_async. rewrite Ht. cbn.
  rewrite Hc. reflexivity.
Qed.

End CreatePost.

(** A body without a title, sent by Alice. *)
Lemma asyncCreatePost_missing_title_witness :
  asyncCreatePost Toy.env
                  (Toy.request None "" [("body", JStr "text")])
                  (start_as Toy.store (Identity.of_user Toy.alice))
  = (Return,
     mkWorld Toy.store (Some (Identity.of_user Toy.alice))
             [NextErr 404 "Please include a title field"] None).
Proof.
  apply asyncCreatePost_missing_title_is_404.
  reflexivity.
Defined.

(** ** Rows of a table *)

Section Rows.
Context {A : Type}.
Variables (sel : A -> bool) (f : A -> A).

Lemma find_update_first (l : list A) (x : A) :
  find sel l = Some x -> sel (f x) = true ->
  find sel (Prisma.update_first sel f l) = Some (f x).
Proof.
  induction l as [|y l IH]; simpl; [discriminate|].
  destruct (sel y) eqn:Hy; intros Hx Hf.
  - injection Hx as ->. simpl. now rewrite Hf.
  - simpl. rewrite Hy. auto.
Qed.

Lemma update_first_no_match (l : list A) :
  find sel l = None -> Prisma.update_first sel f l = l.
Proof.
  induction l as [|y l IH]; simpl; [reflexivity|].
  destruct (sel y); [discriminate|]. intros H. now rewrite IH.
Qed.

Lemma Forall_update_first (Q : A -> Prop) (l : list A) :
  (forall x, Q x -> Q (f x)) -> Forall Q l -> Forall Q (Prisma.update_first sel f l).
Proof.
  intros Hf. induction 1 as [|y l Hy Hl IH]; simpl; [constructor|].
  destruct (sel y); constructor; auto.
Qed.

Lemma update_first_length (l : list A) :
  List.length (Prisma.update_first sel f l) = List.length l.
Proof.
  induction l as [|y l IH]; simpl; [reflexivity|].
  destruct (sel y); simpl; congruence.
Qed.

Lemma find_none_forall (l : list A) :
  find sel l = None <-> forall x, In x l -> sel x = false.
Proof.
  split.
  - intros H x Hx. exact (find_none sel l H x Hx).
  - induction l as [|y l IH]; simpl; intros H; [reflexivity|].
    rewrite (H y (or_introl eq_refl)). apply IH. intros x Hx. apply H. now right.
Qed.

End Rows.

Lemma existsb_by_email (e : string) (l : list User.t) :
  existsb (Prisma.by_email e) l = false -> ~ In e (map User.email l).
Proof.
  induction l as [|u l IH]; simpl; [tauto|].
  intros H [Hu|Hl]; apply orb_false_iff in H as [H1 H2].
  - unfold Prisma.by_email in H1. rewrite Hu, String.eqb_refl in H1. discriminate.
  - exact (IH H2 Hl).
Qed.

Lemma existsb_by_username (n : string) (l : list User.t) :
  existsb (Prisma.by_username n) l = false -> ~ In n (map User.username l).
Proof.
  induction l as [|u l IH]; simpl; [tauto|].
  intros H [Hu|Hl]; apply orb_false_iff in H as [H1 H2].
  - unfold Prisma.by_username in H1. rewrite Hu, String.eqb_refl in H1. discriminate.
  - exact (IH H2 Hl).
Qed.

Lemma NoDup_snoc {A : Type} (l : list A) (x : A) :
  NoDup l -> ~ In x l -> NoDup (l ++ [x]).
Proof.
  intros Hl Hx. apply NoDup_rev in Hl.
  rewrite <- (rev_involutive (l ++ [x])). apply NoDup_rev.
  rewrite rev_app_distr. simpl. constructor; [|assumption].
  now rewrite <- in_rev.
Qed.

(** ** Registration *)


Section Registration.
Context {P : Primitives}.
Variable E : Env.

(** Whatever [create] rejects with, the [catch] of the handler turns it into
    a 400 and returns. *)
Lemma asyncRegisterUser_rejected (req : Request) (d : Db) (pw : string) (e : Exn) :
  get "password" (req_body req) = JStr pw ->
  Prisma.user_create (serial E) (get "username" (req_body req))
                     (get "email" (req_body req)) (bcrypt_hash pw (salt E)) d
  = (inl e, d) ->
  asyncRegisterUser E req (start d)
  = (Return,
     mkWorld d None
       [ConsoleError e;
        NextErr 400 (if match code e with
                        | Some c => String.eqb c "P2002"
                        | None => false
                        end
                     then conflict_message
                     else "Please include all fields.")]
       None).
Proof.
  intros Hpw Hc. unfold asyncRegisterUser, hash. run_async.
  rewrite Hpw. cbn. rewrite Hc. cbn.
  destruct (match code e with Some c => _ | None => false end); reflexivity.
Qed.

(** The row [create] accepts is answered with 201 and the session body. *)
Lemma asyncRegisterUser_created
      (req : Request) (d d' : Db) (pw : string) (u : User.t) :
  get "password" (req_body req) = JStr pw ->
  Prisma.user_create (serial E) (get "username" (req_body req))
                     (get "email" (req_body req)) (bcrypt_hash pw (salt E)) d
  = (inr u, d') ->
  asyncRegisterUser E req (start d)
  = (Normal tt, mkWorld d' None [Respond 201 (session_json E u)] (Some u)).
Proof.
  intros Hpw Hc. unfold asyncRegisterUser, hash. run_async.
  rewrite Hpw. cbn. rewrite Hc. reflexivity.
Qed.

(** A password that is not a string never reaches the store. *)
Lemma asyncRegisterUser_no_password (req : Request) (d : Db) :
  (forall pw, get "password" (req_body req) <> JStr pw) ->
  asyncRegisterUser E req (start d)
  = (Return,
     mkWorld d None
       [ConsoleError BcryptIllegalArguments;
        NextErr 400 "Please include all fields."] None).
Proof.
  intros Hpw. unfold asyncRegisterUser, hash. run_async.
  destruct (get "password" (req_body req)) eqn:X; try reflexivity.
  now destruct (Hpw s).
Qed.

(** [create] either leaves the store alone and rejects, or resolves. *)
Lemma user_create_cases (sid : Z) (n e : JValue) (pw : string) (d : Db) :
  (exists x, Prisma.user_create sid n e pw d = (inl x, d))
  \/ (exists u d', Prisma.user_create sid n e pw d = (inr u, d')
                   /\ taken Prisma.by_email e d = false
                   /\ taken Prisma.by_username n d = false
                   /\ users d' = (users d ++ [u])%list
                   /\ posts d' = posts d
                   /\ User.passwordResetToken u = None
                   /\ User.passwordResetTokenExpiry u = None).
Proof.
  unfold Prisma.user_create, taken.
  destruct n as [| | | |n|]; try (left; eexists; reflexivity).
  destruct e as [| | | |e|]; try (left; eexists; reflexivity).
  destruct (30 <? _); [left; eexists; reflexivity|].
  destruct (existsb (Prisma.by_id sid) (users d)); [left; eexists; reflexivity|].
  destruct (existsb (Prisma.by_email e) (users d)); [left; eexists; reflexivity|].
  destruct (existsb (Prisma.by_username n) (users d)); [left; eexists; reflexivity|].
  right. do 2 eexists. cbn. repeat split.
Qed.


End Registration.


(** ** Password reset flow *)


Lemma reset_matches_spec (token : string) (date : Z) (u : User.t) :
  Prisma.reset_matches token date u = true
  <-> User.passwordResetToken u = Some token
      /\ exists e, User.passwordResetTokenExpiry u = Some e /\ date <= e.
Proof.
  unfold Prisma.reset_matches.
  destruct (User.passwordResetToken u) as [t|], (User.passwordResetTokenExpiry u) as [e|];
    split; try discriminate; try (intros [H _]; discriminate);
    try (intros [_ [e' [H _]]]; discriminate).
  - intros H. apply andb_true_iff in H as [Ht He].
    apply String.eqb_eq in Ht. apply Z.leb_le in He. subst. eauto.
  - intros [Ht [e' [He Hle]]]. injection Ht as ->. injection He as ->.
    rewrite String.eqb_refl. now apply Z.leb_le.
Qed.

Section ResetFlow.
Context {P : Primitives}.
Variable E : Env.

Lemma asyncForgotPassword_unknown (req : Request) (d : Db) (e : string) :
  get "email" (req_body req) = JStr e ->
  find (Prisma.by_email e) (users d) = None ->
  asyncForgotPassword E req (start d)
  = (Return, mkWorld d None [NextErr 404 "Couldn't find your account."] None).
Proof.
  intros He Hf. unfold asyncForgotPassword, Prisma.user_findUnique_email.
  run_async. rewrite He, Hf. reflexivity.
Qed.

Lemma asyncForgotPassword_known (req : Request) (d : Db) (e : string) (u : User.t) :
  get "email" (req_body req) = JStr e ->
  find (Prisma.by_email e) (users d) = Some u ->
  asyncForgotPassword E req (start d)
  = (Normal tt,
     mkWorld (mkDb (Prisma.update_first (Prisma.by_email e)
                      (set_reset (resetToken E) (resetTokenExpiry E)) (users d))
                   (posts d))
             None (mail_events E req e ++ [reset_sent]) None).
Proof.
  intros He Hf.
  unfold asyncForgotPassword, Prisma.user_findUnique_email,
    Prisma.user_update_email, Prisma.user_update, asyncSendEmail, mail_events,
    resetLink, resetToken, resetTokenExpiry.
  run_async. rewrite He, Hf. cbn. rewrite Hf. cbn.
  destruct (mail_ok E); reflexivity.
Qed.

Lemma asyncForgotPassword_no_email (req : Request) (d : Db) :
  (forall e, get "email" (req_body req) <> JStr e) ->
  asyncForgotPassword E req (start d)
  = (Normal tt, mkWorld d None [ConsoleError PrismaValidationError; reset_sent] None).
Proof.
  intros He. unfold asyncForgotPassword, Prisma.user_findUnique_email. run_async.
  destruct (get "email" (req_body req)) eqn:X; try reflexivity.
  now destruct (He s).
Qed.

Lemma asyncResetPassword_no_match (req : Request) (d : Db) :
  find (Prisma.reset_matches (params_token req) (now E)) (users d) = None ->
  asyncResetPassword E req (start d)
  = (Return, mkWorld d None [NextErr 400 "Invalid or expired token."] None).
Proof.
  intros Hf. unfold asyncResetPassword, Prisma.user_findFirst_reset.
  run_async. rewrite Hf. reflexivity.
Qed.

Lemma asyncResetPassword_match (req : Request) (d : Db) (u : User.t) (pw : string) :
  find (Prisma.reset_matches (params_token req) (now E)) (users d) = Some u ->
  get "newPassword" (req_body req) = JStr pw ->
  asyncResetPassword E req (start d)
  = (Normal tt,
     mkWorld (mkDb (Prisma.update_first (Prisma.by_id (User.id u))
                      (set_password (bcrypt_hash pw (salt E))) (users d))
                   (posts d))
             None [reset_done] None).
Proof.
  intros Hf Hpw.
  unfold asyncResetPassword, Prisma.user_findFirst_reset, Prisma.user_update, hash.
  run_async. rewrite Hf, Hpw. cbn.
  destruct (find (Prisma.by_id (User.id u)) (users d)) eqn:Hid; [reflexivity|].
  apply find_some in Hf as [Hin _].
  pose proof (find_none _ _ Hid u Hin) as X.
  unfold Prisma.by_id in X. rewrite Z.eqb_refl in X. discriminate.
Qed.

Lemma asyncResetPassword_no_password (req : Request) (d : Db) (u : User.t) :
  find (Prisma.reset_matches (params_token req) (now E)) (users d) = Some u ->
  (forall pw, get "newPassword" (req_body req) <> JStr pw) ->
  asyncResetPassword E req (start d)
  = (Normal tt, mkWorld d None [ConsoleError BcryptIllegalArguments; reset_done] None).
Proof.
  intros Hf Hpw.
  unfold asyncResetPassword, Prisma.user_findFirst_reset, hash.
  run_async. rewrite Hf.
  destruct (get "newPassword" (req_body req)) eqn:X; try reflexivity.
  now destruct (Hpw s).
Qed.



End ResetFlow.



(** ** The reset columns go together *)

Lemma set_reset_paired (tok : string) (expiry : Z) (u : User.t) :
  reset_paired (set_reset tok expiry u).
Proof. unfold reset_paired; cbn; split; discriminate. Qed.

Lemma set_password_paired (hashed : string) (u : User.t) :
  reset_paired (set_password hashed u).
Proof. unfold reset_paired; cbn; split; reflexivity. Qed.

Section Invariant.
Context {P : Primitives}.
Variable E : Env.

(** Registration leaves the table alone or appends one row with both reset
    columns null. *)
Lemma asyncRegisterUser_cases (req : Request) (d : Db) :
  (exists x msg,
      asyncRegisterUser E req (start d)
      = (Return, mkWorld d None [ConsoleError x; NextErr 400 msg] None))
  \/ (exists u d',
         asyncRegisterUser E req (start d)
         = (Normal tt, mkWorld d' None [Respond 201 (session_json E u)] (Some u))
         /\ users d' = (users d ++ [u])%list
         /\ posts d' = posts d
         /\ User.passwordResetToken u = None
         /\ User.passwordResetTokenExpiry u = None).
Proof.
  destruct (get "password" (req_body req)) as [| | | |pw|] eqn:Hpw;
    try (left; do 2 eexists; apply asyncRegisterUser_no_password;
         intros pw X; rewrite Hpw in X; discriminate).
  destruct (user_create_cases (serial E) (get "username" (req_body req))
              (get "email" (req_body req)) (bcrypt_hash pw (salt E)) d)
    as [[x Hx] | [u [d' [Hc [_ [_ [Hu [Hp [Ht He]]]]]]]]].
  - left. do 2 eexists. exact (asyncRegisterUser_rejected E req d pw x Hpw Hx).
  - right. exists u, d'. repeat split; auto.
    exact (asyncRegisterUser_created E req d d' pw u Hpw Hc).
Qed.

(** A reset request leaves the table alone or writes a token and an expiry
    on one row. *)
Lemma asyncForgotPassword_cases (req : Request) (d : Db) :
  db (snd (asyncForgotPassword E req (start d))) = d
  \/ exists e,
       db (snd (asyncForgotPassword E req (start d)))
       = mkDb (Prisma.update_first (Prisma.by_email e)
                 (set_reset (resetToken E) (resetTokenExpiry E)) (users d))
              (posts d).
Proof.
  destruct (get "email" (req_body req)) as [| | | |e|] eqn:He;
    try (left; rewrite asyncForgotPassword_no_email
           by (intros e X; rewrite He in X; discriminate); reflexivity).
  destruct (find (Prisma.by_email e) (users d)) as [u|] eqn:Hf.
  - right. exists e. now rewrite (asyncForgotPassword_known E req d e u He Hf).
  - left. now rewrite (asyncForgotPassword_unknown E req d e He Hf).
Qed.

(** A reset completion leaves the table alone or writes a hash and two nulls
    on one row. *)
Lemma asyncResetPassword_cases (req : Request) (d : Db) :
  db (snd (asyncResetPassword E req (start d))) = d
  \/ exists i hashed,
       db (snd (asyncResetPassword E req (start d)))
       = mkDb (Prisma.update_first (Prisma.by_id i) (set_password hashed) (users d))
              (posts d).
Proof.
  destruct (find (Prisma.reset_matches (params_token req) (now E)) (users d))
    as [u|] eqn:Hf.
  - destruct (get "newPassword" (req_body req)) as [| | | |pw|] eqn:Hpw;
      try (left; rewrite (asyncResetPassword_no_password E req d u Hf)
             by (intros pw X; rewrite Hpw in X; discriminate); reflexivity).
    right. do 2 eexists. now rewrite (asyncResetPassword_match E req d u pw Hf Hpw).
  - left. now rewrite (asyncResetPassword_no_match E req d Hf).
Qed.

(** Each of the three operations keeps the columns paired. *)
Lemma core_step_paired (op : CoreOp) (req : Request) (d : Db) :
  reset_invariant d -> reset_invariant (core_step E op req d).
Proof.
  unfold reset_invariant. intros Hinv. destruct op; unfold core_step.
  - destruct (asyncRegisterUser_cases req d)
      as [[x [msg ->]] | [u [d' [-> [Hu [_ [Ht He]]]]]]]; cbn; [assumption|].
    rewrite Hu. apply Forall_app. split; [assumption|].
    constructor; [|constructor]. unfold reset_paired. rewrite Ht, He. tauto.
  - destruct (asyncForgotPassword_cases req d) as [->|[e ->]]; [assumption|].
    cbn. apply Forall_update_first; [|assumption].
    intros x _. apply set_reset_paired.
  - destruct (asyncResetPassword_cases req d) as [->|[i [h ->]]]; [assumption|].
    cbn. apply Forall_update_first; [|assumption].
    intros x _. apply set_password_paired.
Qed.

(** C9.  On a store in which every row has both reset columns set or both
    null, registration, reset request and reset completion each end in such
    a store, for every request.  Registration creates its row with both
    columns null; a reset request changes the table only by writing a token
    and an expiry together on one row; a reset completion changes it only by
    writing a hash and nulls in both columns on one row. *)
Theorem reset_columns_stay_paired (req : Request) (d : Db) :
  reset_invariant d ->
  (reset_invariant (db (snd (asyncRegisterUser E req (start d))))
   /\ reset_invariant (db (snd (asyncForgotPassword E req (start d))))
   /\ reset_invariant (db (snd (asyncResetPassword E req (start d)))))
  /\ (forall u,
        local (snd (asyncRegisterUser E req (start d))) = Some u ->
        users (db (snd (asyncRegisterUser E req (start d)))) = (users d ++ [u])%list
        /\ User.passwordResetToken u = None
        /\ User.passwordResetTokenExpiry u = None)
  /\ (db (snd (asyncForgotPassword E req (start d))) = d
      \/ exists e tok expiry,
           users (db (snd (asyncForgotPassword E req (start d))))
           = Prisma.update_first (Prisma.by_email e)
               (fun u => User.mk (User.id u) (User.email u) (User.username u)
                                 (User.password u) (Some tok) (Some expiry))
               (users d))
  /\ (db (snd (asyncResetPassword E req (start d))) = d
      \/ exists i hashed,
           users (db (snd (asyncResetPassword E req (start d))))
           = Prisma.update_first (Prisma.by_id i)
               (fun u => User.mk (User.id u) (User.email u) (User.username u)
                                 hashed None None)
               (users d)).
Proof.
  intros Hinv.
  split; [|split; [|split]].
  - split; [|split].
    + exact (core_step_paired Register req d Hinv).
    + exact (core_step_paired RequestReset req d Hinv).
    + exact (core_step_paired CompleteReset req d Hinv).
  - intros u Hu.
    destruct (asyncRegisterUser_cases req d)
      as [[x [msg H]] | [u' [d' [H [Hus [_ [Ht He]]]]]]];
      rewrite H in *; cbn in *; [discriminate|].
    injection Hu as <-. auto.
  - destruct (asyncForgotPassword_cases req d) as [H|[e H]]; [now left|].
    right. exists e, (resetToken E), (resetTokenExpiry E). now rewrite H.
  - destruct (asyncResetPassword_cases req d) as [H|[i [h H]]]; [now left|].
    right. exists i, h. now rewrite H.
Qed.

End Invariant.

(** Every store built from the empty one by registrations, reset requests
    and reset completions, in any order and under any clock and randomness,
    has the columns paired. *)
Lemma reachable_paired {P : Primitives} (d : Db) :
  reachable d -> reset_invariant d.
Proof.
  induction 1 as [|E op req d _ IH].
  - constructor.
  - now apply core_step_paired.
Qed.

(** The three operations on the sample store with Bob's pending reset. *)
Lemma reset_columns_stay_paired_witness :
  let P := Toy.primitives in
  let req := mkRequest None "" "c0ffee"
               [("username", JStr "carol"); ("email", JStr "bob@example.com");
                ("password", JStr "pw"); ("newPassword", JStr "n3w")]
               "http" "localhost:8000" in
  reset_invariant (db (snd (asyncRegisterUser Toy.env req (start pending_store))))
  /\ reset_invariant (db (snd (asyncForgotPassword Toy.env req (start pending_store))))
  /\ reset_invariant (db (snd (asyncResetPassword Toy.env req (start pending_store)))).
Proof.
  intros P req.
  apply (reset_columns_stay_paired Toy.env req pending_store).
  repeat constructor; discriminate.
Defined.

(** ** What the responses carry *)

Section Responses.
Context {P : Primitives}.
Variable E : Env.

(** The body of a session response, field by field. *)
Lemma session_json_fields (u : User.t) :
  session_json E u
  = JObj [("id", JNum (User.id u)); ("username", JStr (User.username u));
          ("email", JStr (User.email u));
          ("token", JStr (generateJWT E (User.id u)))].
Proof. reflexivity. Qed.

(** Login answers only when the row was found and the password compared
    equal, and then with the session body of that row. *)
Lemma asyncLoginUser_cases (req : Request) (d : Db) :
  (exists u,
      In u (users d)
      /\ asyncLoginUser E req (start d)
         = (Return, mkWorld d None [Respond 200 (session_json E u)] (Some u)))
  \/ responses (trace (snd (asyncLoginUser E req (start d)))) = [].
Proof.
  unfold asyncLoginUser, Prisma.user_findUnique_username, compare. run_async.
  destruct (get "username" (req_body req)) as [| | | |n|]; try (right; reflexivity).
  destruct (find (Prisma.by_username n) (users d)) as [u|] eqn:Hf; cbn;
    [|right; reflexivity].
  destruct (get "password" (req_body req)) as [| | | |pw|]; try (right; reflexivity).
  cbn. destruct (bcrypt_compare pw (User.password u)); [|right; reflexivity].
  left. exists u. split; [|reflexivity].
  now apply find_some in Hf as [Hin _].
Qed.

(** The current-user handler answers with three fields of the row of the
    attached identity. *)
Lemma asyncGetUserData_cases (req : Request) (d : Db) (who : option Identity.t) :
  (exists u,
      In u (users d)
      /\ trace (snd (asyncGetUserData req (mkWorld d who [] None)))
         = [Respond 200 (JObj [("id", JNum (User.id u));
                               ("username", JStr (User.username u));
                               ("email", JStr (User.email u))])])
  \/ trace (snd (asyncGetUserData req (mkWorld d who [] None))) = [].
Proof.
  unfold asyncGetUserData, Prisma.user_findUnique_id. run_async.
  destruct who as [i|]; cbn; [|right; reflexivity].
  destruct (find (Prisma.by_id (Identity.id i)) (users d)) as [u|] eqn:Hf; cbn;
    [|right; reflexivity].
  left. exists u. split; [|reflexivity].
  now apply find_some in Hf as [Hin _].
Qed.

(** The identity the middleware attaches is the three-field projection of a
    stored row, or nothing. *)
Lemma protect_identity (req : Request) (d : Db) (who : Identity.t) :
  req_user (snd (protect E req (start d))) = Some who ->
  exists u, In u (users d)
            /\ who = Identity.mk (User.id u) (User.username u) (User.email u).
Proof.
  destruct (has_scheme req) eqn:Hs.
  - assert (exists a, authorization req = Some a) as [a Ha].
    { unfold has_scheme in Hs. destruct (authorization req); [eauto|discriminate]. }
    destruct (Jwt.verify (bearer_token a) (JWT_SECRET E) (clock E)) as [e|c] eqn:Hv.
    + rewrite (protect_rejected E req d a e Ha Hs Hv). discriminate.
    + destruct (bearer_token a) as [tok|] eqn:Hb; [|discriminate].
      rewrite (protect_verified E req d a tok c Ha Hs Hb Hv). cbn.
      destruct (find (Prisma.by_id (c_id c)) (users d)) as [u|] eqn:Hf;
        [|discriminate].
      cbn. intros X. injection X as <-. exists u. split; [|reflexivity].
      now apply find_some in Hf as [Hin _].
  - rewrite (protect_no_scheme E req d Hs). discriminate.
Qed.

(** C10.  Every response written by registration or login is an object with
    exactly the keys id, username, email, token, holding those three columns
    of a stored row and a token issued for its id; every response written by
    the current-user handler is an object with exactly the keys id,
    username, email of a stored row; the identity the middleware attaches
    is the projection of a stored row to id, username, email.  None of them
    has a password key. *)
Theorem responses_omit_password_hash (req : Request) (d : Db) :
  (forall status body,
      In (Respond status body)
         (trace (snd (asyncRegisterUser E req (start d)))) ->
      keys body = ["id"; "username"; "email"; "token"]
      /\ ~ In "password" (keys body)
      /\ exists u,
           In u (users (db (snd (asyncRegisterUser E req (start d)))))
           /\ body = JObj [("id", JNum (User.id u));
                           ("username", JStr (User.username u));
                           ("email", JStr (User.email u));
                           ("token", JStr (generateJWT E (User.id u)))])
  /\ (forall status body,
         In (Respond status body)
            (trace (snd (asyncLoginUser E req (start d)))) ->
         keys body = ["id"; "username"; "email"; "token"]
         /\ ~ In "password" (keys body)
         /\ exists u,
              In u (users d)
              /\ body = JObj [("id", JNum (User.id u));
                              ("username", JStr (User.username u));
                              ("email", JStr (User.email u));
                              ("token", JStr (generateJWT E (User.id u)))])
  /\ (forall who status body,
         In (Respond status body)
            (trace (snd (asyncGetUserData req (mkWorld d who [] None)))) ->
         keys body = ["id"; "username"; "email"]
         /\ ~ In "password" (keys body)
         /\ exists u,
              In u (users d)
              /\ body = JObj [("id", JNum (User.id u));
                              ("username", JStr (User.username u));
                              ("email", JStr (User.email u))])
  /\ (forall who,
         req_user (snd (protect E req (start d))) = Some who ->
         exists u, In u (users d)
                   /\ who = Identity.mk (User.id u) (User.username u) (User.email u)).
Proof.
  split; [|split; [|split]].
  - intros status body Hin.
    destruct (asyncRegisterUser_cases E req d)
      as [[x [msg H]] | [u [d' [H [Hu _]]]]]; rewrite H in *; cbn in Hin.
    + destruct Hin as [X|[X|[]]]; discriminate X.
    + destruct Hin as [X|[]]. injection X as <- <-.
      split; [reflexivity|split].
      * cbn. intros [X|[X|[X|[X|[]]]]]; discriminate X.
      * exists u. split; [|reflexivity]. cbn. rewrite Hu.
        apply in_or_app. right. now left.
  - intros status body Hin.
    destruct (asyncLoginUser_cases req d) as [[u [Hu H]] | H].
    + rewrite H in Hin. cbn in Hin. destruct Hin as [X|[]].
      injection X as <- <-.
      split; [reflexivity|split].
      * cbn. intros [X|[X|[X|[X|[]]]]]; discriminate X.
      * exists u. split; [assumption|reflexivity].
    + exfalso.
      assert (In (Respond status body)
                 (responses (trace (snd (asyncLoginUser E req (start d)))))) as X
          by (apply filter_In; split; [assumption|reflexivity]).
      rewrite H in X. destruct X.
  - intros who status body Hin.
    destruct (asyncGetUserData_cases req d who) as [[u [Hu H]] | H];
      rewrite H in Hin; [|destruct Hin].
    destruct Hin as [X|[]]. injection X as <- <-.
    split; [reflexivity|split].
    + cbn. intros [X|[X|[X|[]]]]; discriminate X.
    + exists u. split; [assumption|reflexivity].
  - intros who. apply protect_identity.
Qed.

End Responses.

(** Bob logs in on the sample store: the response has the four fields and
    the token verifies to his id. *)
Lemma responses_omit_password_hash_witness :
  let P := Toy.primitives in
  let req := Toy.request None ""
               [("username", JStr "bob"); ("password", JStr "hunter2")] in
  In (Respond 200 (session_json Toy.env Toy.bob))
     (trace (snd (asyncLoginUser Toy.env req (start Toy.store))))
  /\ keys (session_json Toy.env Toy.bob) = ["id"; "username"; "email"; "token"]
  /\ ~ In "password" (keys (session_json Toy.env Toy.bob)).
Proof.
  intros P req.
  assert (In (Respond 200 (session_json Toy.env Toy.bob))
             (trace (snd (asyncLoginUser Toy.env req (start Toy.store))))) as Hin
      by (left; reflexivity).
  split; [exact Hin|].
  destruct (proj1 (proj2 (responses_omit_password_hash Toy.env req Toy.store))
                  200 (session_json Toy.env Toy.bob) Hin) as [Hk [Hp _]].
  split; assumption.
Defined.

(* ================================================================== *)
(** * Further properties of the handlers *)

(** ** Handlers do not look at the trace *)

Section Oblivious.
Context {L : Type}.

Lemma oblivious_ret {A} (a : A) : trace_oblivious (@ret L A a).
Proof. intros t w; reflexivity. Qed.

Lemma oblivious_throw {A} (e : Exn) : trace_oblivious (@throw L A e).
Proof. intros t w; reflexivity. Qed.

Lemma oblivious_return {A} : trace_oblivious (@return_ L A).
Proof. intros t w; reflexivity. Qed.

Lemma oblivious_emit (ev : Event) : trace_oblivious (@emit L ev).
Proof.
  intros t w. unfold emit, prepend. cbn. now rewrite app_assoc.
Qed.

Lemma oblivious_await {A} (q : Prisma.Query A) : trace_oblivious (@await L A q).
Proof.
  intros t w. unfold await, prepend. cbn.
  destruct (q (db w)) as [[e|a] d]; reflexivity.
Qed.

Lemma oblivious_lift {A} (r : Exn + A) : trace_oblivious (@lift L A r).
Proof. intros t w. destruct r; reflexivity. Qed.

Lemma oblivious_assign (v : L) : trace_oblivious (assign v).
Proof. intros t w; reflexivity. Qed.

Lemma oblivious_read : trace_oblivious (@read L).
Proof. intros t w; reflexivity. Qed.

Lemma oblivious_set_req_user (u : option Identity.t) :
  trace_oblivious (@set_req_user L u).
Proof. intros t w; reflexivity. Qed.

Lemma oblivious_req_user_id : trace_oblivious (@req_user_id L).
Proof.
  intros t w. destruct w as [d u tr l]. destruct u; reflexivity.
Qed.

Lemma oblivious_bind {A B} (m : Async L A) (k : A -> Async L B) :
  trace_oblivious m -> (forall a, trace_oblivious (k a)) ->
  trace_oblivious (bind m k).
Proof.
  intros Hm Hk t w. unfold bind. rewrite (Hm t w).
  destruct (m w) as [[a|e|] w']; cbn; [apply Hk | reflexivity | reflexivity].
Qed.

Lemma oblivious_try_catch {A} (body : Async L A) (handler : Exn -> Async L A) :
  trace_oblivious body -> (forall e, trace_oblivious (handler e)) ->
  trace_oblivious (try_catch body handler).
Proof.
  intros Hb Hh t w. unfold try_catch. rewrite (Hb t w).
  destruct (body w) as [[a|e|] w']; cbn; [reflexivity | apply Hh | reflexivity].
Qed.

End Oblivious.

Create HintDb oblivious.
#[export] Hint Resolve oblivious_ret oblivious_throw oblivious_return
  oblivious_emit oblivious_await oblivious_lift oblivious_assign oblivious_read
  oblivious_set_req_user oblivious_req_user_id : oblivious.

Ltac oblivious :=
  cbv zeta;
  repeat first
    [ apply oblivious_bind
    | apply oblivious_try_catch
    | progress intros
    | match goal with
      | |- trace_oblivious (match ?x with _ => _ end) => destruct x
      end
    | solve [auto with oblivious]
    | progress unfold next, next_err, res_json, console_error, asyncSendEmail ].

Section ObliviousHandlers.
Context {P : Primitives}.
Variable E : Env.

Lemma asyncGetAllPosts_oblivious (q : option string) (req : Request) :
  trace_oblivious (asyncGetAllPosts q req).
Proof. unfold asyncGetAllPosts. oblivious. Qed.

Lemma asyncGetPost_oblivious (req : Request) : trace_oblivious (asyncGetPost req).
Proof. unfold asyncGetPost. oblivious. Qed.

Lemma asyncCreatePost_oblivious (req : Request) :
  trace_oblivious (asyncCreatePost E req).
Proof. unfold asyncCreatePost. oblivious. Qed.

Lemma asyncUpdatePost_oblivious (req : Request) :
  trace_oblivious (asyncUpdatePost req).
Proof. unfold asyncUpdatePost. oblivious. Qed.

Lemma asyncDeletePost_oblivious (req : Request) :
  trace_oblivious (asyncDeletePost req).
Proof. unfold asyncDeletePost. oblivious. Qed.

Lemma asyncGetUserData_oblivious (req : Request) :
  trace_oblivious (asyncGetUserData req).
Proof. unfold asyncGetUserData. oblivious. Qed.

End ObliviousHandlers.

(** ** The middleware, once more *)

Section MiddlewareMore.
Context {P : Primitives}.
Variable E : Env.

(** A header made of the scheme, one space and a token without spaces
    passes the scheme test and yields that token. *)
Lemma bearer_header (tok : string) :
  lacks " "%char tok = true ->
  forall req, authorization req = Some ("Bearer " ++ tok) ->
  has_scheme req = true /\ bearer_token ("Bearer " ++ tok) = Some tok.
Proof.
  intros Hs req Ha. unfold has_scheme, bearer_token. rewrite Ha. split.
  - cbn. now destruct tok.
  - change ("Bearer " ++ tok) with ("Bearer" ++ String " "%char tok).
    rewrite (split_append " "%char "Bearer" tok eq_refl), (split_lacks _ _ Hs).
    reflexivity.
Qed.

(** The two ways a run of the middleware can end. *)
Lemma protect_cases (req : Request) (d : Db) :
  (exists tok c,
      protect E req (start d)
      = (Normal tt,
         mkWorld d (option_map Identity.of_user
                      (find (Prisma.by_id (c_id c)) (users d)))
                 [Next] (Some tok))
      /\ Jwt.verify (Some tok) (JWT_SECRET E) (clock E) = inr c)
  \/ (exists t tok,
         protect E req (start d) = (Normal tt, mkWorld d None t tok)
         /\ called_next t = false
         /\ responses t = []
         /\ (next_calls t = [unauthorized]
             \/ next_calls t = [missing_credential]
             \/ next_calls t = [unauthorized; missing_credential])).
Proof.
  destruct (has_scheme req) eqn:Hs.
  - assert (exists a, authorization req = Some a) as [a Ha].
    { unfold has_scheme in Hs. destruct (authorization req); [eauto|discriminate]. }
    destruct (Jwt.verify (bearer_token a) (JWT_SECRET E) (clock E)) as [e|c] eqn:Hv.
    + right. rewrite (protect_rejected E req d a e Ha Hs Hv).
      do 2 eexists. split; [reflexivity|].
      destruct (truthy (opt_str (bearer_token a))); cbn; auto.
    + left. destruct (bearer_token a) as [tok|] eqn:Hb; [|discriminate].
      exists tok, c. split; [|assumption].
      exact (protect_verified E req d a tok c Ha Hs Hb Hv).
  - right. rewrite (protect_no_scheme E req d Hs).
    do 2 eexists. split; [reflexivity|]. cbn. auto.
Qed.

(** X1.  Whatever the request, the middleware leaves the store as it found
    it and writes no response; and when it does not call [next()] it
    attaches no identity and every error it hands on carries status 401. *)
Theorem protect_only_reads (req : Request) (d : Db) :
  let w := snd (protect E req (start d)) in
  db w = d
  /\ responses (trace w) = []
  /\ (called_next (trace w) = false ->
      req_user w = None
      /\ next_calls (trace w) <> []
      /\ forall ev, In ev (next_calls (trace w)) ->
                    exists msg, ev = NextErr 401 msg).
Proof.
  cbv zeta.
  destruct (protect_cases req d) as [[tok [c [-> _]]] | [t [tok [-> [Hn [Hr Hc]]]]]];
    cbn [snd db trace req_user].
  - split; [reflexivity|split; [reflexivity|]].
    intros X. cbn in X. discriminate.
  - split; [reflexivity|split; [assumption|]].
    intros _. split; [reflexivity|split].
    + destruct Hc as [->|[->| ->]]; discriminate.
    + intros ev Hin.
      destruct Hc as [H|[H|H]]; rewrite H in Hin; cbn in Hin;
        repeat (destruct Hin as [<-|Hin]; [eexists; reflexivity|]);
        destruct Hin.
Qed.

(** X2.  A token issued by [generateJWT] for the id of a stored row,
    presented as ["Bearer <token>"] under the same secret before its expiry,
    makes the middleware store that row's id, username and email in
    [req.user] and call [next()] once, with no error. *)
Theorem protect_accepts_issued_token
        (E0 : Env) (req : Request) (d : Db) (u : User.t) :
  let c := mkClaims (User.id u) (clock E0) (clock E0 + 30 * 24 * 60 * 60) in
  let tok := generateJWT E0 (User.id u) in
  decode_claims (encode_claims c) = Some c ->
  lacks Jwt.dot (encode_claims c) = true ->
  lacks Jwt.dot (hmac (JWT_SECRET E0) (Jwt.header ++ "." ++ encode_claims c)) = true ->
  lacks " "%char tok = true ->
  JWT_SECRET E = JWT_SECRET E0 ->
  clock E < clock E0 + 30 * 24 * 60 * 60 ->
  find (Prisma.by_id (User.id u)) (users d) = Some u ->
  authorization req = Some ("Bearer " ++ tok) ->
  protect E req (start d)
  = (Normal tt, mkWorld d (Some (Identity.of_user u)) [Next] (Some tok)).
Proof.
  intros c tok Hdec Hp Hs Hsp Hk Hclk Hfind Ha.
  destruct (bearer_header tok Hsp req Ha) as [Hsch Hb].
  assert (Jwt.verify (Some tok) (JWT_SECRET E) (clock E) = inr c) as Hv.
  { subst tok. unfold generateJWT. rewrite Hk.
    rewrite (verify_sign (User.id u) (JWT_SECRET E0) Jwt.thirty_days
               (clock E0) (clock E) Hdec Hp Hs).
    destruct (Z.leb_spec (clock E0 + Jwt.thirty_days) (clock E));
      [unfold Jwt.thirty_days in *; lia | reflexivity]. }
  rewrite (protect_verified E req d _ tok c Ha Hsch Hb Hv).
  cbn [c_id c]. rewrite Hfind. reflexivity.
Qed.

(** X3.  The same token presented thirty days or more after it was issued
    is refused: the middleware logs the expiry, hands on one 401
    "Unauthorized" error, attaches no identity and does not call [next()]. *)
Theorem protect_rejects_expired_token
        (E0 : Env) (req : Request) (d : Db) (uid : Z) :
  let c := mkClaims uid (clock E0) (clock E0 + 30 * 24 * 60 * 60) in
  let tok := generateJWT E0 uid in
  decode_claims (encode_claims c) = Some c ->
  lacks Jwt.dot (encode_claims c) = true ->
  lacks Jwt.dot (hmac (JWT_SECRET E0) (Jwt.header ++ "." ++ encode_claims c)) = true ->
  lacks " "%char tok = true ->
  JWT_SECRET E = JWT_SECRET E0 ->
  now E0 + 30 * 24 * 60 * 60 * 1000 <= now E ->
  authorization req = Some ("Bearer " ++ tok) ->
  protect E req (start d)
  = (Normal tt,
     mkWorld d None [ConsoleError TokenExpiredError; unauthorized] (Some tok)).
Proof.
  intros c tok Hdec Hp Hs Hsp Hk Hlate Ha.
  destruct (bearer_header tok Hsp req Ha) as [Hsch Hb].
  pose proof (clock_after_thirty_days E0 E Hlate) as Hc.
  assert (Jwt.verify (bearer_token ("Bearer " ++ tok)) (JWT_SECRET E) (clock E)
          = inl TokenExpiredError) as Hv.
  { rewrite Hb. subst tok. unfold generateJWT. rewrite Hk.
    rewrite (verify_sign uid (JWT_SECRET E0) Jwt.thirty_days
               (clock E0) (clock E) Hdec Hp Hs).
    destruct (Z.leb_spec (clock E0 + Jwt.thirty_days) (clock E));
      [reflexivity | lia]. }
  rewrite (protect_rejected E req d _ _ Ha Hsch Hv), Hb.
  subst tok. reflexivity.
Qed.

(** X4.  A token signed under a secret whose MAC of the signing input
    differs from the server's is refused like any malformed token: one 401
    "Unauthorized" error, no identity, no [next()]. *)
Theorem protect_rejects_foreign_signature
        (E0 : Env) (req : Request) (d : Db) (uid : Z) :
  let c := mkClaims uid (clock E0) (clock E0 + 30 * 24 * 60 * 60) in
  let tok := generateJWT E0 uid in
  let input := Jwt.header ++ "." ++ encode_claims c in
  lacks Jwt.dot (encode_claims c) = true ->
  lacks Jwt.dot (hmac (JWT_SECRET E0) input) = true ->
  lacks " "%char tok = true ->
  hmac (JWT_SECRET E0) input <> hmac (JWT_SECRET E) input ->
  authorization req = Some ("Bearer " ++ tok) ->
  protect E req (start d)
  = (Normal tt,
     mkWorld d None [ConsoleError JsonWebTokenError; unauthorized] (Some tok)).
Proof.
  intros c tok input Hp Hs Hsp Hne Ha. subst input.
  destruct (bearer_header tok Hsp req Ha) as [Hsch Hb].
  assert (Jwt.verify (bearer_token ("Bearer " ++ tok)) (JWT_SECRET E) (clock E)
          = inl JsonWebTokenError) as Hv.
  { rewrite Hb. subst tok. unfold generateJWT, Jwt.verify, Jwt.sign.
    change (mkClaims uid (clock E0) (clock E0 + Jwt.thirty_days)) with c.
    replace (String.eqb _ "") with false by reflexivity.
    rewrite (split_signed Jwt.header _ _ eq_refl Hp Hs).
    destruct (decode_claims (encode_claims c)); [|reflexivity].
    apply String.eqb_neq in Hne. rewrite Hne. reflexivity. }
  rewrite (protect_rejected E req d _ _ Ha Hsch Hv), Hb.
  subst tok. reflexivity.
Qed.

End MiddlewareMore.

Ltac by_evaluation :=
  first [ reflexivity
        | vm_compute; reflexivity
        | vm_compute; discriminate
        | vm_compute; repeat constructor; simpl; intuition discriminate ].

(** Bob's token on the sample store, presented at once. *)
Lemma protect_accepts_issued_token_witness :
  let P := Toy.primitives in
  let tok := generateJWT Toy.env 2 in
  protect Toy.env (Toy.request (Some ("Bearer " ++ tok)) "" []) (start Toy.store)
  = (Normal tt,
     mkWorld Toy.store (Some (Identity.mk 2 "bob" "bob@example.com")) [Next]
             (Some tok)).
Proof.
  intros P tok.
  apply (protect_accepts_issued_token Toy.env Toy.env
           (Toy.request (Some ("Bearer " ++ tok)) "" []) Toy.store Toy.bob);
    by_evaluation.
Defined.

(** Bob's token, thirty days later. *)
Lemma protect_rejects_expired_token_witness :
  let P := Toy.primitives in
  let tok := generateJWT Toy.env 2 in
  protect thirty_days_later (Toy.request (Some ("Bearer " ++ tok)) "" [])
          (start Toy.store)
  = (Normal tt,
     mkWorld Toy.store None [ConsoleError TokenExpiredError; unauthorized]
             (Some tok)).
Proof.
  intros P tok.
  apply (protect_rejects_expired_token thirty_days_later Toy.env
           (Toy.request (Some ("Bearer " ++ tok)) "" []) Toy.store 2);
    by_evaluation.
Defined.

(** Bob's token, presented to a server that signs with another secret. *)
Lemma protect_rejects_foreign_signature_witness :
  let P := Toy.primitives in
  let tok := generateJWT Toy.env 2 in
  protect other_server (Toy.request (Some ("Bearer " ++ tok)) "" [])
          (start Toy.store)
  = (Normal tt,
     mkWorld Toy.store None [ConsoleError JsonWebTokenError; unauthorized]
             (Some tok)).
Proof.
  intros P tok.
  apply (protect_rejects_foreign_signature other_server Toy.env
           (Toy.request (Some ("Bearer " ++ tok)) "" []) Toy.store 2);
    by_evaluation.
Defined.

(** ** Guarded routes *)

Section Guarded.
Context {P : Primitives}.
Variable E : Env.
Context {L : Type}.
Variable handler : Request -> Async (option L) unit.

(** X5.  On a guarded route, a request without the scheme, or whose token
    does not verify, never reaches the handler: what the route does is what
    the middleware did, the store is unchanged, no response is written and
    only 401 errors are handed on. *)
Theorem guarded_rejects_before_handler (req : Request) (d : Db) :
  (forall a, authorization req = Some a -> has_scheme req = true ->
             exists e, Jwt.verify (bearer_token a) (JWT_SECRET E) (clock E) = inl e) ->
  let r := guarded E handler req d in
  trace (snd r) = trace (snd (protect E req (start d)))
  /\ db (snd r) = d
  /\ req_user (snd r) = None
  /\ responses (trace (snd r)) = []
  /\ called_next (trace (snd r)) = false
  /\ forall ev, In ev (next_calls (trace (snd r))) -> exists msg, ev = NextErr 401 msg.
Proof.
  intros Hbad r. subst r. unfold guarded.
  destruct (protect_cases E req d)
    as [[tok [c [Hp Hv]]] | [t [tok [Hp [Hn [Hr Hc]]]]]].
  - exfalso.
    destruct (has_scheme req) eqn:Hs.
    + assert (exists a, authorization req = Some a) as [a Ha].
      { unfold has_scheme in Hs. destruct (authorization req); [eauto|discriminate]. }
      destruct (Hbad a Ha eq_refl) as [e He].
      rewrite (protect_rejected E req d a e Ha Hs He) in Hp.
      apply (f_equal (fun x => trace (snd x))) in Hp. cbn in Hp. discriminate.
    + rewrite (protect_no_scheme E req d Hs) in Hp. discriminate.
  - rewrite Hp. cbn [snd trace db req_user fst]. rewrite Hn.
    cbn [snd trace db req_user fst].
    repeat split; try assumption.
    intros ev Hin.
    destruct Hc as [H|[H|H]]; rewrite H in Hin; cbn in Hin;
      repeat (destruct Hin as [<-|Hin]; [eexists; reflexivity|]);
      destruct Hin.
Qed.

(** X6.  On a guarded route, a request whose token verifies to the id of a
    stored row is handled exactly as the handler handles it with that row's
    identity attached, after the one [next()] of the middleware. *)
Theorem guarded_runs_handler_as_user
        (req : Request) (d : Db) (a tok : string) (c : Claims) (u : User.t) :
  trace_oblivious (handler req) ->
  authorization req = Some a ->
  has_scheme req = true ->
  bearer_token a = Some tok ->
  Jwt.verify (Some tok) (JWT_SECRET E) (clock E) = inr c ->
  find (Prisma.by_id (c_id c)) (users d) = Some u ->
  let as_user := handler req (start_as d (Identity.of_user u)) in
  guarded E handler req d = (fst as_user, prepend [Next] (snd as_user)).
Proof.
  intros Hobl Ha Hs Hb Hv Hfind as_user. subst as_user. unfold guarded.
  rewrite (protect_verified E req d a tok c Ha Hs Hb Hv), Hfind.
  cbn [snd trace db req_user fst called_next existsb option_map orb].
  exact (Hobl [Next] (start_as d (Identity.of_user u))).
Qed.

End Guarded.

(** [GET /posts/1] without a header on the sample store. *)
Lemma guarded_rejects_before_handler_witness :
  let P := Toy.primitives in
  let r := guarded Toy.env asyncGetPost (Toy.request None "1" []) Toy.store in
  trace (snd r) = [missing_credential]
  /\ db (snd r) = Toy.store
  /\ responses (trace (snd r)) = [].
Proof.
  intros P r.
  destruct (guarded_rejects_before_handler Toy.env asyncGetPost
              (Toy.request None "1" []) Toy.store)
    as [H1 [H2 [_ [H4 _]]]].
  - intros a Ha. discriminate Ha.
  - repeat split; assumption.
Defined.

(** Bob reads his post 2 through the guarded route. *)
Lemma guarded_runs_handler_as_user_witness :
  let P := Toy.primitives in
  let tok := generateJWT Toy.env 2 in
  guarded Toy.env asyncGetPost (Toy.request (Some ("Bearer " ++ tok)) "2" [])
          Toy.store
  = (Normal tt,
     mkWorld Toy.store (Some (Identity.of_user Toy.bob))
             [Next; Respond 200 (Post.json Toy.post2)] (Some Toy.post2)).
Proof.
  intros P tok.
  apply (guarded_runs_handler_as_user Toy.env asyncGetPost
           (Toy.request (Some ("Bearer " ++ tok)) "2" []) Toy.store
           ("Bearer " ++ tok) tok (mkClaims 2 1700000000 1702592000) Toy.bob);
    first [apply asyncGetPost_oblivious | by_evaluation].
Defined.

(** ** More on rows *)

Section RowsMore.
Context {A : Type}.
Variable sel : A -> bool.

Lemma find_snoc_fresh (l : list A) (x : A) :
  existsb sel l = false -> sel x = true -> find sel (l ++ [x]) = Some x.
Proof.
  induction l as [|y l IH]; simpl; intros Hl Hx.
  - now rewrite Hx.
  - apply orb_false_iff in Hl as [Hy Hl]. rewrite Hy. auto.
Qed.

Lemma existsb_find_none (l : list A) : existsb sel l = false <-> find sel l = None.
Proof.
  induction l as [|y l IH]; simpl; [tauto|].
  destruct (sel y); simpl; [split; discriminate | exact IH].
Qed.

Lemma remove_first_subset (l : list A) (x : A) :
  In x (Prisma.remove_first sel l) -> In x l.
Proof.
  induction l as [|y l IH]; simpl; [tauto|].
  destruct (sel y); simpl; intuition.
Qed.

Lemma map_update_first {B} (g : A -> B) (f : A -> A) (l : list A) :
  (forall x, g (f x) = g x) -> map g (Prisma.update_first sel f l) = map g l.
Proof.
  intros Hg. induction l as [|y l IH]; simpl; [reflexivity|].
  destruct (sel y); simpl; [now rewrite Hg | now rewrite IH].
Qed.

Lemma update_first_in (f : A -> A) (l : list A) (x : A) :
  In x (Prisma.update_first sel f l) -> In x l \/ exists y, In y l /\ x = f y.
Proof.
  induction l as [|y l IH]; simpl; [tauto|].
  destruct (sel y); simpl.
  - intros [<-|H]; [right; exists y; auto | auto].
  - intros [<-|H]; [auto|].
    destruct (IH H) as [H'|[z [Hz ->]]]; [auto | right; exists z; auto].
Qed.

End RowsMore.

Lemma map_remove_first_NoDup {A B : Type} (sel : A -> bool) (g : A -> B) (l : list A) :
  NoDup (map g l) -> NoDup (map g (Prisma.remove_first sel l)).
Proof.
  induction l as [|y l IH]; simpl; intros H; [assumption|].
  inversion H as [|? ? Hy Hl]; subst.
  destruct (sel y); [assumption|]. simpl. constructor; [|auto].
  intros Hin. apply Hy. apply in_map_iff in Hin as [z [<- Hz]].
  apply in_map. eapply remove_first_subset; eassumption.
Qed.

Lemma existsb_post_by_id (i : Z) (l : list Post.t) :
  existsb (Prisma.post_by_id i) l = false -> ~ In i (map Post.id l).
Proof.
  induction l as [|p l IH]; simpl; [tauto|].
  intros H [Hp|Hl]; apply orb_false_iff in H as [H1 H2].
  - unfold Prisma.post_by_id in H1. rewrite Hp, Z.eqb_refl in H1. discriminate.
  - exact (IH H2 Hl).
Qed.

Lemma existsb_by_id (i : Z) (l : list User.t) :
  existsb (Prisma.by_id i) l = false -> ~ In i (map User.id l).
Proof.
  induction l as [|u l IH]; simpl; [tauto|].
  intros H [Hu|Hl]; apply orb_false_iff in H as [H1 H2].
  - unfold Prisma.by_id in H1. rewrite Hu, Z.eqb_refl in H1. discriminate.
  - exact (IH H2 Hl).
Qed.

Lemma existsb_by_id_in (i : Z) (l : list User.t) :
  existsb (Prisma.by_id i) l = true -> In i (map User.id l).
Proof.
  intros H. apply existsb_exists in H as [u [Hu Hi]].
  apply Z.eqb_eq in Hi. subst. now apply in_map.
Qed.

(** Under a key, dropping the first row with an id drops every row with
    that id. *)
Lemma find_remove_first (i : Z) (l : list Post.t) :
  NoDup (map Post.id l) ->
  find (Prisma.post_by_id i) (Prisma.remove_first (Prisma.post_by_id i) l) = None.
Proof.
  induction l as [|p l IH]; simpl; intros H; [reflexivity|].
  inversion H as [|? ? Hp Hl]; subst.
  destruct (Prisma.post_by_id i p) eqn:X.
  - apply existsb_find_none. destruct (existsb _ l) eqn:Y; [|reflexivity].
    exfalso. apply Hp. apply existsb_exists in Y as [q [Hq Hi]].
    unfold Prisma.post_by_id in *. apply Z.eqb_eq in X, Hi.
    rewrite X, <- Hi. now apply in_map.
  - simpl. rewrite X. auto.
Qed.

Lemma find_remove_first_other (i j : Z) (l : list Post.t) :
  i <> j ->
  find (Prisma.post_by_id j) (Prisma.remove_first (Prisma.post_by_id i) l)
  = find (Prisma.post_by_id j) l.
Proof.
  intros Hne. induction l as [|p l IH]; simpl; [reflexivity|].
  destruct (Prisma.post_by_id i p) eqn:X; simpl.
  - destruct (Prisma.post_by_id j p) eqn:Y; [|reflexivity].
    unfold Prisma.post_by_id in *. apply Z.eqb_eq in X, Y. congruence.
  - now rewrite IH.
Qed.

Lemma firstn_prefix {A : Type} (n : nat) (l : list A) :
  exists rest, l = (firstn n l ++ rest)%list.
Proof. exists (skipn n l). symmetry. apply firstn_skipn. Qed.

(** ** The post handlers, beyond the guard *)

(** X7.  [GET /posts] for an authenticated user answers 200 with the posts
    that user created, in table order, cut to the first [limit] of them;
    an absent or non-numeric limit shows them all and a negative one shows
    none.  The store is unchanged and no error is handed on. *)
Theorem asyncGetAllPosts_lists_own_posts
        (q : option string) (req : Request) (d : Db) (u : Identity.t) :
  let mine := filter (fun p => Post.created_by p =? Identity.id u) (posts d) in
  let shown := slice0 mine (limit_of q) in
  let n := parseInt (match q with Some s => s | None => "undefined" end) in
  asyncGetAllPosts q req (start_as d u)
  = (Normal tt,
     mkWorld d (Some u) [Respond 200 (array (map Post.json shown))] (Some mine))
  /\ (forall p, In p shown -> In p (posts d) /\ Post.created_by p = Identity.id u)
  /\ (exists rest, mine = (shown ++ rest)%list)
  /\ (forall k, n = Some k ->
                List.length shown = Nat.min (Z.to_nat k) (List.length mine))
  /\ (forall k, n = Some k -> k <= 0 -> shown = [])
  /\ (n = None -> shown = mine).
Proof.
  intros mine shown n. split; [reflexivity|].
  assert (exists rest, mine = (shown ++ rest)%list) as Hpre.
  { subst shown. unfold slice0. destruct (limit_of q) as [k|].
    - apply firstn_prefix.
    - exists []. now rewrite app_nil_r. }
  split; [|split; [exact Hpre|]].
  - intros p Hp. destruct Hpre as [rest Hrest].
    assert (In p mine) as Hm by (rewrite Hrest; apply in_or_app; now left).
    apply filter_In in Hm as [Hin Ho]. split; [assumption|now apply Z.eqb_eq].
  - subst shown. unfold limit_of. fold n. repeat split.
    + intros k ->. cbn. rewrite length_firstn. f_equal. lia.
    + intros k -> Hk. cbn. replace (Z.to_nat (Z.max 0 k)) with 0%nat by lia.
      reflexivity.
    + intros ->. reflexivity.
Qed.

Ltac unchanged_store :=
  solve [ left; cbn;
          split; [reflexivity|];
          split; [reflexivity|];
          first [ left; split; reflexivity
                | right; eexists; split; reflexivity ] ].

Section PostsMore.
Variable E : Env.

(** The ways [POST /posts] can end. *)
Lemma asyncCreatePost_cases (req : Request) (d : Db) (who : option Identity.t) :
  let r := asyncCreatePost E req (mkWorld d who [] None) in
  (db (snd r) = d /\ local (snd r) = None
   /\ ((truthy (get "title" (req_body req)) = false
        /\ trace (snd r) = [NextErr 404 "Please include a title field"])
       \/ (exists e, fst r = Normal tt
                     /\ trace (snd r) = [ConsoleError e; Respond 201 JUndefined])))
  \/ (exists u p t,
         who = Some u
         /\ r = (Normal tt,
                 mkWorld (mkDb (users d) (posts d ++ [p])) who
                         [Respond 201 (Post.json p)] (Some p))
         /\ get "title" (req_body req) = JStr t
         /\ p = Post.mk (serial E) t (Post.body p) (Identity.id u) (now E)
         /\ Z.of_nat (Prisma.char_length t) <= 255
         /\ existsb (Prisma.post_by_id (serial E)) (posts d) = false
         /\ existsb (Prisma.by_id (Identity.id u)) (users d) = true).
Proof.
  cbv zeta. unfold asyncCreatePost, Prisma.post_create. run_async.
  destruct (truthy (get "title" (req_body req))); cbn; [|unchanged_store].
  destruct who as [u|]; cbn; [|unchanged_store].
  destruct (get "title" (req_body req)) as [| | | |t|] eqn:Ht;
    try unchanged_store.
  destruct (Prisma.nullable_str (get "body" (req_body req))) as [b|];
    cbn; [|unchanged_store].
  destruct (Z.ltb_spec 255 (Z.of_nat (Prisma.char_length t))); cbn; [unchanged_store|].
  destruct (existsb (Prisma.by_id (Identity.id u)) (users d)) eqn:Hu;
    cbn; [|unchanged_store].
  destruct (existsb (Prisma.post_by_id (serial E)) (posts d)) eqn:Hp;
    cbn; [unchanged_store|].
  right. exists u, (Post.mk (serial E) t b (Identity.id u) (now E)), t.
  repeat split; auto.
Qed.



(** X9.  A post that [POST /posts] created is read back by its creator:
    [GET /posts/:id] with the new id answers 200 with the same post, and for
    any other user it hands on the 401 error. *)
Theorem created_post_is_read_back
        (req req' : Request) (d : Db) (u v : Identity.t) (p : Post.t) :
  local (snd (asyncCreatePost E req (start_as d u))) = Some p ->
  Prisma.int_arg (parseInt (params_id req')) = Some (Post.id p) ->
  let d' := db (snd (asyncCreatePost E req (start_as d u))) in
  asyncGetPost req' (start_as d' u)
  = (Normal tt, mkWorld d' (Some u) [Respond 200 (Post.json p)] (Some p))
  /\ (Identity.id v <> Identity.id u ->
      asyncGetPost req' (start_as d' v)
      = (Return,
         mkWorld d' (Some v)
                 [NextErr 401 "You are not authorized to view this post"]
                 (Some p))).
Proof.
  intros Hloc Hid d'. subst d'. unfold start_as in *.
  destruct (asyncCreatePost_cases req d (Some u))
    as [[_ [Hn _]] | [u' [p' [t [Hu [Hc [_ [Hp [_ [Hfresh _]]]]]]]]]];
    [congruence|].
  injection Hu as <-. rewrite Hc in *. cbn [snd local db] in *.
  injection Hloc as ->.
  assert (find (Prisma.post_by_id (Post.id p)) (posts d ++ [p]) = Some p) as Hf.
  { apply find_snoc_fresh.
    - rewrite Hp. exact Hfresh.
    - unfold Prisma.post_by_id. apply Z.eqb_refl. }
  assert (Post.created_by p = Identity.id u) as Ho by (rewrite Hp; reflexivity).
  split.
  - unfold asyncGetPost, Prisma.post_findUnique. run_async.
    rewrite Hid. cbn [posts]. rewrite Hf. cbn. rewrite Ho, Z.eqb_refl. reflexivity.
  - intros Hne.
    unfold asyncGetPost, Prisma.post_findUnique. run_async.
    rewrite Hid. cbn [posts]. rewrite Hf. cbn. rewrite Ho.
    destruct (Z.eqb_spec (Identity.id u) (Identity.id v)); [congruence|].
    reflexivity.
Qed.

(** What [PATCH /posts/:id] and [DELETE /posts/:id] can do to the store,
    whoever asks. *)
Lemma asyncUpdatePost_store (req : Request) (d : Db) (who : option Identity.t) :
  let d' := db (snd (asyncUpdatePost req (mkWorld d who [] None))) in
  d' = d
  \/ exists n,
       d' = mkDb (users d)
                 (Prisma.update_first (Prisma.post_by_id n)
                    (Prisma.post_patch (get "title" (req_body req))
                                       (get "body" (req_body req)))
                    (posts d)).
Proof.
  cbv zeta. unfold asyncUpdatePost, Prisma.post_findUnique, Prisma.post_update.
  run_async.
  destruct (Prisma.int_arg (parseInt (params_id req))) as [n|]; cbn; [|now left].
  destruct (find (Prisma.post_by_id n) (posts d)) as [p|] eqn:Hp; cbn; [|now left].
  destruct who as [u|]; cbn; [|now left].
  destruct (negb (Post.created_by p =? Identity.id u)); cbn; [now left|].
  destruct (negb (Prisma.post_data_valid _ _)); cbn; [now left|].
  rewrite Hp.
  destruct (Prisma.title_too_long _); cbn; [now left|].
  right. exists n. reflexivity.
Qed.

Lemma asyncDeletePost_store (req : Request) (d : Db) (who : option Identity.t) :
  let d' := db (snd (asyncDeletePost req (mkWorld d who [] None))) in
  d' = d
  \/ exists n p u,
       d' = mkDb (users d) (Prisma.remove_first (Prisma.post_by_id n) (posts d))
       /\ Prisma.int_arg (parseInt (params_id req)) = Some n
       /\ find (Prisma.post_by_id n) (posts d) = Some p
       /\ who = Some u
       /\ Post.created_by p = Identity.id u.
Proof.
  cbv zeta. unfold asyncDeletePost, Prisma.post_findUnique, Prisma.post_delete.
  run_async.
  destruct (Prisma.int_arg (parseInt (params_id req))) as [n|] eqn:Hn;
    cbn; [|now left].
  destruct (find (Prisma.post_by_id n) (posts d)) as [p|] eqn:Hp; cbn; [|now left].
  destruct who as [u|]; cbn; [|now left].
  destruct (Z.eqb_spec (Post.created_by p) (Identity.id u)); cbn; [|now left].
  rewrite Hp. cbn.
  right. exists n, p, u. repeat split; auto.
Qed.

Lemma asyncGetPost_store (req : Request) (d : Db) (who : option Identity.t) :
  db (snd (asyncGetPost req (mkWorld d who [] None))) = d.
Proof.
  unfold asyncGetPost, Prisma.post_findUnique. run_async.
  destruct (Prisma.int_arg (parseInt (params_id req))) as [n|]; cbn; [|reflexivity].
  destruct (find (Prisma.post_by_id n) (posts d)) as [p|]; cbn; [|reflexivity].
  destruct who as [u|]; cbn; [|reflexivity].
  destruct (negb (Post.created_by p =? Identity.id u)); reflexivity.
Qed.

Lemma asyncGetAllPosts_store (q : option string) (req : Request) (d : Db)
      (who : option Identity.t) :
  db (snd (asyncGetAllPosts q req (mkWorld d who [] None))) = d.
Proof.
  unfold asyncGetAllPosts, Prisma.post_findMany. run_async.
  destruct who; reflexivity.
Qed.

Lemma asyncGetUserData_store (req : Request) (d : Db) (who : option Identity.t) :
  db (snd (asyncGetUserData req (mkWorld d who [] None))) = d.
Proof.
  unfold asyncGetUserData, Prisma.user_findUnique_id. run_async.
  destruct who as [u|]; cbn; [|reflexivity].
  destruct (find _ (users d)); reflexivity.
Qed.

(** X10.  After its owner deleted a post, and post ids being a key, a
    [GET /posts/:id] for the same id hands on the 404 error, whoever asks,
    while every other id still finds what it found before. *)
Theorem deleted_post_is_gone
        (req req' : Request) (d : Db) (u : Identity.t) (n : Z) (p : Post.t)
        (who : option Identity.t) :
  NoDup (map Post.id (posts d)) ->
  Prisma.int_arg (parseInt (params_id req)) = Some n ->
  find (Prisma.post_by_id n) (posts d) = Some p ->
  Post.created_by p = Identity.id u ->
  Prisma.int_arg (parseInt (params_id req')) = Some n ->
  let d' := db (snd (asyncDeletePost req (start_as d u))) in
  asyncGetPost req' (mkWorld d' who [] None)
  = (Return, mkWorld d' who [NextErr 404 (not_found_message req')] None)
  /\ (forall m, m <> n ->
                find (Prisma.post_by_id m) (posts d')
                = find (Prisma.post_by_id m) (posts d))
  /\ users d' = users d.
Proof.
  intros Hnd Hn Hp Ho Hn' d'.
  assert (d' = mkDb (users d) (Prisma.remove_first (Prisma.post_by_id n) (posts d)))
    as Hd'.
  { subst d'.
    pose proof (guard_owner req d u n Hn DeletePost p Hp Ho) as [_ [_ [_ H]]].
    exact H. }
  rewrite Hd'. split; [|split].
  - unfold asyncGetPost, Prisma.post_findUnique. run_async.
    rewrite Hn'. cbn [posts]. rewrite (find_remove_first n (posts d) Hnd).
    reflexivity.
  - intros m Hm. cbn [posts]. now apply find_remove_first_other.
  - reflexivity.
Qed.

(** X11.  [PATCH /posts/:id] never creates or removes a post and never
    changes a post's id, owner or creation time, whatever the request and
    whoever sends it; it changes no user row either. *)
Theorem asyncUpdatePost_keeps_origin
        (req : Request) (d : Db) (who : option Identity.t) :
  let d' := db (snd (asyncUpdatePost req (mkWorld d who [] None))) in
  map post_origin (posts d') = map post_origin (posts d)
  /\ users d' = users d.
Proof.
  cbv zeta. destruct (asyncUpdatePost_store req d who) as [->|[n ->]].
  - split; reflexivity.
  - split; [|reflexivity]. cbn [posts].
    apply map_update_first. intros x. reflexivity.
Qed.

End PostsMore.

(** ** What each endpoint can do to the store *)

Lemma user_create_fresh (sid : Z) (n e : JValue) (pw : string) (d d' : Db) (u : User.t) :
  Prisma.user_create sid n e pw d = (inr u, d') ->
  existsb (Prisma.by_id (User.id u)) (users d) = false
  /\ existsb (Prisma.by_email (User.email u)) (users d) = false
  /\ existsb (Prisma.by_username (User.username u)) (users d) = false
  /\ d' = mkDb (users d ++ [u]) (posts d)
  /\ n = JStr (User.username u)
  /\ e = JStr (User.email u)
  /\ User.password u = pw.
Proof.
  unfold Prisma.user_create.
  destruct n as [| | | |n|]; try discriminate.
  destruct e as [| | | |e|]; try discriminate.
  destruct (30 <? _); [discriminate|].
  destruct (existsb (Prisma.by_id sid) (users d)) eqn:Hi; [discriminate|].
  destruct (existsb (Prisma.by_email e) (users d)) eqn:He; [discriminate|].
  destruct (existsb (Prisma.by_username n) (users d)) eqn:Hn; [discriminate|].
  cbn. intros H. injection H as <- <-. cbn. repeat split; assumption.
Qed.

Section Stores.
Context {P : Primitives}.
Variable E : Env.

Lemma asyncLoginUser_store (req : Request) (d : Db) :
  db (snd (asyncLoginUser E req (start d))) = d.
Proof.
  unfold asyncLoginUser, Prisma.user_findUnique_username, compare. run_async.
  destruct (get "username" (req_body req)) as [| | | |n|]; try reflexivity.
  destruct (find (Prisma.by_username n) (users d)) as [u|]; cbn; [|reflexivity].
  destruct (get "password" (req_body req)) as [| | | |pw|]; try reflexivity.
  cbn. destruct (bcrypt_compare pw (User.password u)); reflexivity.
Qed.

(** Registration leaves the store alone or appends one row whose id, email
    and username were not in the table. *)
Lemma asyncRegisterUser_store (req : Request) (d : Db) :
  let r := asyncRegisterUser E req (start d) in
  (db (snd r) = d /\ local (snd r) = None)
  \/ (exists u pw,
         r = (Normal tt,
              mkWorld (mkDb (users d ++ [u]) (posts d)) None
                      [Respond 201 (session_json E u)] (Some u))
         /\ existsb (Prisma.by_id (User.id u)) (users d) = false
         /\ existsb (Prisma.by_email (User.email u)) (users d) = false
         /\ existsb (Prisma.by_username (User.username u)) (users d) = false
         /\ get "username" (req_body req) = JStr (User.username u)
         /\ get "password" (req_body req) = JStr pw
         /\ u = User.mk (serial E) (User.email u) (User.username u)
                        (bcrypt_hash pw (salt E)) None None).
Proof.
  cbv zeta.
  destruct (get "password" (req_body req)) as [| | | |pw|] eqn:Hpw;
    try (left; rewrite asyncRegisterUser_no_password
           by (intros pw X; rewrite Hpw in X; discriminate);
         split; reflexivity).
  destruct (Prisma.user_create (serial E) (get "username" (req_body req))
              (get "email" (req_body req)) (bcrypt_hash pw (salt E)) d)
    as [[x|u] d'] eqn:Hc.
  - left. assert (d' = d) as ->.
    { destruct (user_create_cases (serial E) (get "username" (req_body req))
                  (get "email" (req_body req)) (bcrypt_hash pw (salt E)) d)
        as [[y Hy] | [u [d'' [Hy _]]]]; congruence. }
    rewrite (asyncRegisterUser_rejected E req d pw x Hpw Hc). split; reflexivity.
  - right. exists u, pw.
    destruct (user_create_fresh _ _ _ _ _ _ _ Hc) as [Hi [He [Hn [-> [Hun [_ Hp]]]]]].
    rewrite (asyncRegisterUser_created E req d _ pw u Hpw Hc).
    repeat split; auto.
    revert Hc. unfold Prisma.user_create. rewrite Hun.
    destruct (get "email" (req_body req)); try discriminate.
    destruct (30 <? _); [discriminate|].
    destruct (_ || _ || _)%bool; [discriminate|].
    intros X. injection X as <-. reflexivity.
Qed.

(** X12.  With no identity attached, as after the middleware let a token
    pass whose subject has no row, none of the guarded handlers writes to
    the store: nothing is created, changed or deleted. *)
Theorem handlers_without_identity_write_nothing
        (ep : Endpoint) (req : Request) (d : Db) :
  protected ep = true -> store_after E ep req None d = d.
Proof.
  intros Hp. destruct ep; try discriminate; unfold store_after.
  - apply asyncGetAllPosts_store.
  - apply asyncGetPost_store.
  - destruct (asyncCreatePost_cases E req d None)
      as [[H _] | [u [p [t [Hu _]]]]]; [exact H | discriminate].
  - unfold asyncUpdatePost, Prisma.post_findUnique. run_async.
    destruct (Prisma.int_arg (parseInt (params_id req))) as [n|]; cbn; [|reflexivity].
    destruct (find (Prisma.post_by_id n) (posts d)); reflexivity.
  - destruct (asyncDeletePost_store req d None)
      as [H | [n [p [u [_ [_ [_ [Hu _]]]]]]]]; [exact H | discriminate].
  - apply asyncGetUserData_store.
Qed.

(** X13.  Reading endpoints and login leave the whole store as it was; the
    post endpoints that write leave the [User] table as it was; the user
    endpoints that write leave the [Post] table as it was.  This holds for
    every request and identity. *)
Theorem endpoints_write_one_table
        (ep : Endpoint) (req : Request) (who : option Identity.t) (d : Db) :
  let d' := store_after E ep req who d in
  match ep with
  | GetAllPosts _ | GetPostById | LoginUser | GetUserData => d' = d
  | CreatePost | UpdatePostById | DeletePostById => users d' = users d
  | RegisterUser | ForgotPassword | ResetPassword => posts d' = posts d
  end.
Proof.
  cbv zeta. destruct ep; unfold store_after.
  - apply asyncGetAllPosts_store.
  - apply asyncGetPost_store.
  - destruct (asyncCreatePost_cases E req d who)
      as [[-> _] | [u [p [t [_ [-> _]]]]]]; reflexivity.
  - destruct (asyncUpdatePost_store req d who) as [->|[n ->]]; reflexivity.
  - destruct (asyncDeletePost_store req d who) as [->|[n [p [u [-> _]]]]]; reflexivity.
  - destruct (asyncRegisterUser_store req d) as [[-> _]|[u [pw [-> _]]]]; reflexivity.
  - apply asyncLoginUser_store.
  - apply asyncGetUserData_store.
  - destruct (asyncForgotPassword_cases E req d) as [->|[e ->]]; reflexivity.
  - destruct (asyncResetPassword_cases E req d) as [->|[i [h ->]]]; reflexivity.
Qed.

(** X14.  Every endpoint keeps the keys: on a store where user ids, emails,
    usernames and post ids are each free of duplicates, the store after any
    request to any endpoint is so again. *)
Theorem endpoints_keep_keys_unique
        (ep : Endpoint) (req : Request) (who : option Identity.t) (d : Db) :
  keys_unique d -> keys_unique (store_after E ep req who d).
Proof.
  intros Hk.
  destruct Hk as [Hi [He [Hn Hp]]].
  destruct ep; unfold store_after.
  - rewrite asyncGetAllPosts_store. repeat split; assumption.
  - rewrite asyncGetPost_store. repeat split; assumption.
  - destruct (asyncCreatePost_cases E req d who)
      as [[-> _] | [u [p [t [_ [-> [_ [Hpp [_ [Hf _]]]]]]]]]];
      cbn [snd db]; [repeat split; assumption|].
    unfold keys_unique. cbn [users posts]. repeat split; try assumption.
    rewrite map_app. cbn. apply NoDup_snoc; [assumption|].
    rewrite Hpp. cbn [Post.id]. now apply existsb_post_by_id.
  - destruct (asyncUpdatePost_store req d who) as [->|[n ->]];
      [repeat split; assumption|].
    unfold keys_unique. cbn [users posts]. repeat split; try assumption.
    rewrite map_update_first; [assumption|]. intros x; reflexivity.
  - destruct (asyncDeletePost_store req d who) as [->|[n [p [u [-> _]]]]];
      [repeat split; assumption|].
    unfold keys_unique. cbn [users posts]. repeat split; try assumption.
    now apply map_remove_first_NoDup.
  - destruct (asyncRegisterUser_store req d)
      as [[-> _]|[u [pw [-> [Hfi [Hfe [Hfn _]]]]]]];
      cbn [snd db]; [repeat split; assumption|].
    unfold keys_unique. cbn [users posts]. rewrite !map_app. cbn.
    repeat split; try assumption; apply NoDup_snoc; try assumption.
    + now apply existsb_by_id.
    + now apply existsb_by_email.
    + now apply existsb_by_username.
  - rewrite asyncLoginUser_store. repeat split; assumption.
  - rewrite asyncGetUserData_store. repeat split; assumption.
  - destruct (asyncForgotPassword_cases E req d) as [->|[e ->]];
      [repeat split; assumption|].
    unfold keys_unique. cbn [users posts].
    rewrite !map_update_first by (intros x; reflexivity).
    repeat split; assumption.
  - destruct (asyncResetPassword_cases E req d) as [->|[i [h ->]]];
      [repeat split; assumption|].
    unfold keys_unique. cbn [users posts].
    rewrite !map_update_first by (intros x; reflexivity).
    repeat split; assumption.
Qed.

(** X15.  Every endpoint keeps the foreign key: on a store where each post
    names a stored user as its author, the store after any request to any
    endpoint does so again. *)
Theorem endpoints_keep_authors
        (ep : Endpoint) (req : Request) (who : option Identity.t) (d : Db) :
  posts_have_authors d -> posts_have_authors (store_after E ep req who d).
Proof.
  intros Hfk. unfold posts_have_authors in *.
  destruct ep; unfold store_after.
  - now rewrite asyncGetAllPosts_store.
  - now rewrite asyncGetPost_store.
  - destruct (asyncCreatePost_cases E req d who)
      as [[-> _] | [u [p [t [_ [-> [_ [Hpp [_ [_ Hau]]]]]]]]]];
      cbn [snd db users posts]; [assumption|].
    intros x Hx. apply in_app_or in Hx as [Hx|[<-|[]]]; [auto|].
    rewrite Hpp. cbn [Post.created_by]. now apply existsb_by_id_in.
  - destruct (asyncUpdatePost_store req d who) as [->|[n ->]]; [assumption|].
    cbn [users posts]. intros x Hx.
    apply update_first_in in Hx as [Hx|[y [Hy ->]]]; [auto|].
    cbn [Post.created_by Prisma.post_patch]. auto.
  - destruct (asyncDeletePost_store req d who) as [->|[n [p [u [-> _]]]]];
      [assumption|].
    cbn [users posts]. intros x Hx. apply remove_first_subset in Hx. auto.
  - destruct (asyncRegisterUser_store req d) as [[-> _]|[u [pw [-> _]]]];
      cbn [snd db users posts]; [assumption|].
    intros x Hx. rewrite map_app. apply in_or_app. left. auto.
  - now rewrite asyncLoginUser_store.
  - now rewrite asyncGetUserData_store.
  - destruct (asyncForgotPassword_cases E req d) as [->|[e ->]]; [assumption|].
    cbn [users posts]. intros x Hx.
    rewrite map_update_first by (intros y; reflexivity). auto.
  - destruct (asyncResetPassword_cases E req d) as [->|[i [h ->]]]; [assumption|].
    cbn [users posts]. intros x Hx.
    rewrite map_update_first by (intros y; reflexivity). auto.
Qed.

End Stores.

(** ** Login and the current user *)

Section Login.
Context {P : Primitives}.
Variable E : Env.




(** X19.  [GET /users/me] answers with the row the store holds now for the
    attached id: 200 with that row's id, username and email.  When the row
    is gone, or no identity is attached, the handler throws outside any
    [try] and writes nothing. *)
Theorem asyncGetUserData_reads_current_row
        (req : Request) (d : Db) (who : option Identity.t) :
  let r := asyncGetUserData req (mkWorld d who [] None) in
  (forall i u, who = Some i ->
               find (Prisma.by_id (Identity.id i)) (users d) = Some u ->
               r = (Normal tt,
                    mkWorld d who
                      [Respond 200 (JObj [("id", JNum (User.id u));
                                          ("username", JStr (User.username u));
                                          ("email", JStr (User.email u))])]
                      None))
  /\ ((who = None
       \/ exists i, who = Some i
                    /\ find (Prisma.by_id (Identity.id i)) (users d) = None) ->
      r = (Throw TypeError, mkWorld d who [] None)).
Proof.
  cbv zeta. unfold asyncGetUserData, Prisma.user_findUnique_id. run_async. split.
  - intros i u -> Hf. cbn. rewrite Hf. reflexivity.
  - intros [->|[i [-> Hf]]]; cbn; [reflexivity|]. rewrite Hf. reflexivity.
Qed.

End Login.

(** ** The reset flow, end to end *)

Section UpdateTwice.
Context {A : Type}.

(** Two updates through the same selector land on the same row. *)
Lemma update_first_twice (sel : A -> bool) (f g : A -> A) (l : list A) :
  (forall x, sel (f x) = sel x) ->
  Prisma.update_first sel g (Prisma.update_first sel f l)
  = Prisma.update_first sel (fun x => g (f x)) l.
Proof.
  intros Hs. induction l as [|y l IH]; simpl; [reflexivity|].
  destruct (sel y) eqn:Hy; simpl.
  - now rewrite Hs, Hy.
  - now rewrite Hy, IH.
Qed.

End UpdateTwice.

(** Under the id key, an update by the id of the row a selector found
    lands on the row that selector updated. *)
Lemma update_by_id_after (sel : User.t -> bool) (f g : User.t -> User.t)
      (l : list User.t) (u : User.t) :
  NoDup (map User.id l) ->
  (forall x, User.id (f x) = User.id x) ->
  find sel l = Some u ->
  Prisma.update_first (Prisma.by_id (User.id u)) g (Prisma.update_first sel f l)
  = Prisma.update_first sel (fun x => g (f x)) l.
Proof.
  intros Hnd Hf. induction l as [|y l IH]; simpl; [discriminate|].
  inversion Hnd as [|? ? Hy Hl]; subst.
  destruct (sel y) eqn:Hs; intros Hu.
  - injection Hu as ->. simpl. unfold Prisma.by_id at 1.
    now rewrite Hf, Z.eqb_refl.
  - simpl. unfold Prisma.by_id at 1.
    destruct (Z.eqb_spec (User.id y) (User.id u)) as [Heq|_].
    + exfalso. apply Hy. rewrite Heq. apply in_map.
      now apply find_some in Hu as [Hin _].
    + now rewrite (IH Hl Hu).
Qed.

(** A row that a reset request wrote is the one a completion with that
    token finds, while no other row carries the token. *)
Lemma find_reset_after_request (tok : string) (expiry date : Z) (e : string)
      (l : list User.t) (u : User.t) :
  (forall x, In x l -> User.passwordResetToken x <> Some tok) ->
  find (Prisma.by_email e) l = Some u ->
  date <= expiry ->
  find (Prisma.reset_matches tok date)
       (Prisma.update_first (Prisma.by_email e) (set_reset tok expiry) l)
  = Some (set_reset tok expiry u).
Proof.
  intros Hfresh Hf Hd. induction l as [|y l IH]; simpl in *; [discriminate|].
  destruct (Prisma.by_email e y) eqn:He.
  - injection Hf as ->. simpl.
    unfold Prisma.reset_matches at 1. cbn.
    rewrite String.eqb_refl. apply Z.leb_le in Hd. now rewrite Hd.
  - simpl.
    assert (Prisma.reset_matches tok date y = false) as ->.
    { destruct (Prisma.reset_matches tok date y) eqn:X; [|reflexivity].
      apply reset_matches_spec in X as [X _].
      now destruct (Hfresh y (or_introl eq_refl)). }
    apply IH; auto.
Qed.

Section ResetEndToEnd.
Context {P : Primitives}.

(** X20.  The token of a reset request works once.  On a store with unique
    user ids where no row already carries the drawn token, a completion
    with that token no later than ten minutes after the request answers 200
    and leaves the requester's row with the hash of the new password and no
    token or expiry; any completion with the same token after that hands on
    the 400 error and changes nothing. *)
Theorem reset_token_works_once
        (E1 E2 E3 : Env) (req1 req2 req3 : Request) (d : Db)
        (e pw : string) (u : User.t) :
  NoDup (map User.id (users d)) ->
  (forall x, In x (users d) -> User.passwordResetToken x <> Some (resetToken E1)) ->
  get "email" (req_body req1) = JStr e ->
  find (Prisma.by_email e) (users d) = Some u ->
  params_token req2 = resetToken E1 ->
  get "newPassword" (req_body req2) = JStr pw ->
  now E2 <= now E1 + 10 * 60 * 1000 ->
  params_token req3 = resetToken E1 ->
  let d1 := db (snd (asyncForgotPassword E1 req1 (start d))) in
  let r2 := asyncResetPassword E2 req2 (start d1) in
  let d2 := db (snd r2) in
  trace (snd r2) = [reset_done]
  /\ find (Prisma.by_email e) (users d2)
     = Some (User.mk (User.id u) (User.email u) (User.username u)
                     (bcrypt_hash pw (salt E2)) None None)
  /\ asyncResetPassword E3 req3 (start d2)
     = (Return, mkWorld d2 None [invalid_or_expired] None).
Proof.
  intros Hnd Hfresh He Hf Ht2 Hpw Hnow Ht3 d1 r2 d2.
  assert (d1 = mkDb (Prisma.update_first (Prisma.by_email e)
                       (set_reset (resetToken E1) (resetTokenExpiry E1)) (users d))
                    (posts d)) as Hd1.
  { subst d1. now rewrite (asyncForgotPassword_known E1 req1 d e u He Hf). }
  set (u1 := set_reset (resetToken E1) (resetTokenExpiry E1) u).
  assert (find (Prisma.reset_matches (params_token req2) (now E2)) (users d1)
          = Some u1) as Hm.
  { rewrite Hd1, Ht2. cbn [users].
    apply find_reset_after_request; auto;
      try (unfold resetTokenExpiry; lia). }
  set (h := bcrypt_hash pw (salt E2)).
  assert (r2 = (Normal tt,
                mkWorld (mkDb (Prisma.update_first (Prisma.by_email e)
                                 (fun x => set_password h
                                             (set_reset (resetToken E1)
                                                        (resetTokenExpiry E1) x))
                                 (users d))
                              (posts d))
                        None [reset_done] None)) as Hr2.
  { subst r2. rewrite (asyncResetPassword_match E2 req2 d1 u1 pw Hm Hpw).
    rewrite Hd1. cbn [users posts]. fold h.
    change (User.id u1) with (User.id u).
    rewrite (update_by_id_after (Prisma.by_email e)
               (set_reset (resetToken E1) (resetTokenExpiry E1))
               (set_password h) (users d) u Hnd (fun x => eq_refl) Hf).
    reflexivity. }
  assert (d2 = mkDb (Prisma.update_first (Prisma.by_email e)
                       (fun x => set_password h
                                   (set_reset (resetToken E1)
                                              (resetTokenExpiry E1) x))
                       (users d))
                    (posts d)) as Hd2 by (subst d2; now rewrite Hr2).
  split; [now rewrite Hr2|]. split.
  - rewrite Hd2. cbn [users].
    rewrite (find_update_first (Prisma.by_email e)
               (fun x => set_password h
                           (set_reset (resetToken E1) (resetTokenExpiry E1) x))
               (users d) u Hf);
      [reflexivity | now apply find_some in Hf as [_ Hs]].
  - apply asyncResetPassword_no_match.
    apply find_none_forall. intros x Hx. rewrite Hd2 in Hx. cbn [users] in Hx.
    rewrite Ht3.
    destruct (Prisma.reset_matches (resetToken E1) (now E3) x) eqn:X;
      [|reflexivity].
    apply reset_matches_spec in X as [X _].
    apply update_first_in in Hx as [Hx|[y [Hy ->]]].
    + now destruct (Hfresh x Hx).
    + discriminate X.
Qed.

(** X21.  A newer reset request supersedes the older one.  When the two
    requests for the same email drew different random bytes, and no row
    carried the first token beforehand, a completion with the first token
    after the second request hands on the 400 error and changes nothing. *)
Theorem newer_request_invalidates_older_token
        (E1 E2 E3 : Env) (req1 req2 req3 : Request) (d : Db)
        (e : string) (u : User.t) :
  randomBytes E1 32 <> randomBytes E2 32 ->
  (forall x, In x (users d) -> User.passwordResetToken x <> Some (resetToken E1)) ->
  get "email" (req_body req1) = JStr e ->
  get "email" (req_body req2) = JStr e ->
  find (Prisma.by_email e) (users d) = Some u ->
  params_token req3 = resetToken E1 ->
  let d1 := db (snd (asyncForgotPassword E1 req1 (start d))) in
  let d2 := db (snd (asyncForgotPassword E2 req2 (start d1))) in
  find (Prisma.by_email e) (users d2)
  = Some (User.mk (User.id u) (User.email u) (User.username u) (User.password u)
                  (Some (resetToken E2)) (Some (resetTokenExpiry E2)))
  /\ asyncResetPassword E3 req3 (start d2)
     = (Return, mkWorld d2 None [invalid_or_expired] None).
Proof.
  intros Hrnd Hfresh He1 He2 Hf Ht3 d1 d2.
  assert (resetToken E1 <> resetToken E2) as Htok.
  { unfold resetToken. intros X. apply Hrnd. now apply toHex_injective. }
  assert (d1 = mkDb (Prisma.update_first (Prisma.by_email e)
                       (set_reset (resetToken E1) (resetTokenExpiry E1)) (users d))
                    (posts d)) as Hd1.
  { subst d1. now rewrite (asyncForgotPassword_known E1 req1 d e u He1 Hf). }
  assert (Prisma.by_email e u = true) as Hsel
      by (now apply find_some in Hf as [_ Hs]).
  assert (find (Prisma.by_email e) (users d1)
          = Some (set_reset (resetToken E1) (resetTokenExpiry E1) u)) as Hf1.
  { rewrite Hd1. cbn [users]. now apply find_update_first. }
  assert (d2 = mkDb (Prisma.update_first (Prisma.by_email e)
                       (fun x => set_reset (resetToken E2) (resetTokenExpiry E2)
                                   (set_reset (resetToken E1)
                                              (resetTokenExpiry E1) x))
                       (users d))
                    (posts d)) as Hd2.
  { subst d2. rewrite (asyncForgotPassword_known E2 req2 d1 e _ He2 Hf1).
    cbn [snd db]. rewrite Hd1. cbn [users posts].
    rewrite update_first_twice by (intros x; reflexivity). reflexivity. }
  split.
  - rewrite Hd2. cbn [users].
    rewrite (find_update_first (Prisma.by_email e)
               (fun x => set_reset (resetToken E2) (resetTokenExpiry E2)
                           (set_reset (resetToken E1) (resetTokenExpiry E1) x))
               (users d) u Hf Hsel).
    reflexivity.
  - apply asyncResetPassword_no_match.
    apply find_none_forall. intros x Hx. rewrite Hd2 in Hx. cbn [users] in Hx.
    rewrite Ht3.
    destruct (Prisma.reset_matches (resetToken E1) (now E3) x) eqn:X;
      [|reflexivity].
    apply reset_matches_spec in X as [X _].
    apply update_first_in in Hx as [Hx|[y [Hy ->]]].
    + now destruct (Hfresh x Hx).
    + unfold set_reset in X. cbn [User.passwordResetToken] in X.
      congruence.
Qed.

(** X22.  A completion that comes later than ten minutes after the request
    is refused: it hands on the 400 error, and the store, the old password
    and the pending token with it, stays as the request left it. *)
Theorem late_completion_is_refused
        (E1 E2 : Env) (req1 req2 : Request) (d : Db) (e : string) (u : User.t) :
  (forall x, In x (users d) -> User.passwordResetToken x <> Some (resetToken E1)) ->
  get "email" (req_body req1) = JStr e ->
  find (Prisma.by_email e) (users d) = Some u ->
  params_token req2 = resetToken E1 ->
  now E1 + 10 * 60 * 1000 < now E2 ->
  let d1 := db (snd (asyncForgotPassword E1 req1 (start d))) in
  asyncResetPassword E2 req2 (start d1)
  = (Return, mkWorld d1 None [invalid_or_expired] None)
  /\ find (Prisma.by_email e) (users d1)
     = Some (User.mk (User.id u) (User.email u) (User.username u) (User.password u)
                     (Some (resetToken E1)) (Some (resetTokenExpiry E1))).
Proof.
  intros Hfresh He Hf Ht Hlate d1.
  assert (d1 = mkDb (Prisma.update_first (Prisma.by_email e)
                       (set_reset (resetToken E1) (resetTokenExpiry E1)) (users d))
                    (posts d)) as Hd1.
  { subst d1. now rewrite (asyncForgotPassword_known E1 req1 d e u He Hf). }
  split.
  - apply asyncResetPassword_no_match.
    apply find_none_forall. intros x Hx. rewrite Hd1 in Hx. cbn [users] in Hx.
    rewrite Ht.
    destruct (Prisma.reset_matches (resetToken E1) (now E2) x) eqn:X;
      [|reflexivity].
    apply reset_matches_spec in X as [X [ex [Hex Hle]]].
    apply update_first_in in Hx as [Hx|[y [Hy ->]]].
    + now destruct (Hfresh x Hx).
    + cbn in Hex. injection Hex as <-. unfold resetTokenExpiry in Hle. lia.
  - rewrite Hd1. cbn [users].
    rewrite (find_update_first (Prisma.by_email e)
               (set_reset (resetToken E1) (resetTokenExpiry E1)) (users d) u Hf);
      [reflexivity | now apply find_some in Hf as [_ Hs]].
Qed.

End ResetEndToEnd.

(** ** The hex encoding *)

Lemma toHex_cons_hex (b : byte) (bs : list byte) :
  all_chars is_hex (toHex (b :: bs)) = all_chars is_hex (toHex bs).
Proof. destruct b; reflexivity. Qed.

(** X23.  [toString("hex")] writes two characters per byte, all of them
    among [0-9a-f], and loses nothing: byte strings with the same encoding
    are equal.  In particular the reset token has 64 such characters. *)
Theorem toHex_faithful (bs bs' : list byte) (E : Env) :
  String.length (toHex bs) = (2 * List.length bs)%nat
  /\ all_chars is_hex (toHex bs) = true
  /\ (toHex bs = toHex bs' -> bs = bs')
  /\ String.length (resetToken E) = 64%nat
  /\ all_chars is_hex (resetToken E) = true.
Proof.
  assert (forall l, all_chars is_hex (toHex l) = true) as Hhex.
  { induction l as [|b l IH]; [reflexivity|]. now rewrite toHex_cons_hex. }
  split; [apply toHex_length|].
  split; [apply Hhex|].
  split; [apply toHex_injective|].
  split; [|apply Hhex].
  unfold resetToken. now rewrite toHex_length, randomBytes_length.
Qed.

(** ** The further properties on the sample store *)

Lemma sample_keys_unique : keys_unique Toy.store.
Proof.
  unfold keys_unique. cbn.
  repeat split; repeat constructor; simpl; intuition discriminate.
Qed.

Lemma sample_posts_have_authors : posts_have_authors Toy.store.
Proof.
  intros p [<-|[<-|[]]]; cbn; auto.
Qed.

Lemma sample_tokens_fresh (tok : string) (x : User.t) :
  In x (users Toy.store) -> User.passwordResetToken x <> Some tok.
Proof.
  intros [<-|[<-|[]]]; discriminate.
Qed.


(** Alice creates post 10 and reads it back; Bob may not. *)
Lemma created_post_is_read_back_witness :
  let p := Post.mk 10 "news" None 1 1700000000000 in
  let d' := mkDb [Toy.alice; Toy.bob] [Toy.post1; Toy.post2; p] in
  asyncGetPost (Toy.request None "10" []) (start_as d' (Identity.of_user Toy.alice))
  = (Normal tt,
     mkWorld d' (Some (Identity.of_user Toy.alice)) [Respond 200 (Post.json p)]
             (Some p))
  /\ asyncGetPost (Toy.request None "10" []) (start_as d' (Identity.of_user Toy.bob))
     = (Return,
        mkWorld d' (Some (Identity.of_user Toy.bob))
                [NextErr 401 "You are not authorized to view this post"] (Some p)).
Proof.
  intros p d'.
  destruct (created_post_is_read_back Toy.env
              (Toy.request None "" [("title", JStr "news")])
              (Toy.request None "10" []) Toy.store
              (Identity.of_user Toy.alice) (Identity.of_user Toy.bob) p
              eq_refl eq_refl) as [H1 H2].
  split; [exact H1|]. apply H2. discriminate.
Defined.

(** Bob deletes his post 2; nobody finds it afterwards. *)
Lemma deleted_post_is_gone_witness :
  let d' := mkDb [Toy.alice; Toy.bob] [Toy.post1] in
  asyncGetPost (Toy.request None "2" []) (mkWorld d' None [] None)
  = (Return,
     mkWorld d' None [NextErr 404 "No post with id 2 was found"] None)
  /\ find (Prisma.post_by_id 1) (posts d') = Some Toy.post1.
Proof.
  intros d'.
  destruct (deleted_post_is_gone (Toy.request None "2" []) (Toy.request None "2" [])
              Toy.store (Identity.of_user Toy.bob) 2 Toy.post2 None
              (proj2 (proj2 (proj2 sample_keys_unique)))
              eq_refl eq_refl eq_refl eq_refl) as [H1 [H2 _]].
  split; [exact H1|].
  assert (1 <> 2) as Hne by discriminate.
  exact (eq_trans (H2 1 Hne) eq_refl).
Defined.

(** A delete that arrives without an identity. *)
Lemma handlers_without_identity_write_nothing_witness :
  store_after (P := Toy.primitives) Toy.env DeletePostById
              (Toy.request None "2" []) None Toy.store
  = Toy.store.
Proof.
  apply (handlers_without_identity_write_nothing (P := Toy.primitives)).
  reflexivity.
Defined.

(** Carol registers on the sample store. *)
Lemma endpoints_keep_keys_unique_witness :
  keys_unique
    (store_after (P := Toy.primitives) Toy.env RegisterUser
       (Toy.request None ""
          [("username", JStr "carol"); ("email", JStr "carol@example.com");
           ("password", JStr "pw")])
       None Toy.store).
Proof.
  apply (endpoints_keep_keys_unique (P := Toy.primitives)).
  exact sample_keys_unique.
Defined.

(** Alice creates a post on the sample store. *)
Lemma endpoints_keep_authors_witness :
  posts_have_authors
    (store_after (P := Toy.primitives) Toy.env CreatePost
       (Toy.request None "" [("title", JStr "news")])
       (Some (Identity.of_user Toy.alice)) Toy.store).
Proof.
  apply (endpoints_keep_authors (P := Toy.primitives)).
  exact sample_posts_have_authors.
Defined.




(** Bob asks for a reset on the sample store, completes it five minutes
    later, and tries the link again. *)
Lemma reset_token_works_once_witness :
  let P := Toy.primitives in
  let ask := Toy.request None "" [("email", JStr "bob@example.com")] in
  let complete := mkRequest None "" (resetToken Toy.env)
                            [("newPassword", JStr "n3w")] "http" "localhost:8000" in
  let d1 := db (snd (asyncForgotPassword Toy.env ask (start Toy.store))) in
  let d2 := db (snd (asyncResetPassword five_minutes_later complete (start d1))) in
  find (Prisma.by_email "bob@example.com") (users d2)
  = Some (User.mk 2 "bob@example.com" "bob" "pepper$n3w" None None)
  /\ asyncResetPassword too_late complete (start d2)
     = (Return, mkWorld d2 None [invalid_or_expired] None).
Proof.
  intros P ask complete d1 d2.
  destruct (reset_token_works_once Toy.env five_minutes_later too_late
              ask complete complete Toy.store "bob@example.com" "n3w" Toy.bob
              (proj1 sample_keys_unique) (sample_tokens_fresh _)
              eq_refl eq_refl eq_refl eq_refl) as [_ [H2 H3]];
    [vm_compute; discriminate | reflexivity |].
  split; [exact H2 | exact H3].
Defined.

(** Bob asks twice; the first link no longer works. *)
Lemma newer_request_invalidates_older_token_witness :
  let P := Toy.primitives in
  let ask := Toy.request None "" [("email", JStr "bob@example.com")] in
  let complete := mkRequest None "" (resetToken Toy.env)
                            [("newPassword", JStr "n3w")] "http" "localhost:8000" in
  let d1 := db (snd (asyncForgotPassword Toy.env ask (start Toy.store))) in
  let d2 := db (snd (asyncForgotPassword second_draw ask (start d1))) in
  asyncResetPassword five_minutes_later complete (start d2)
  = (Return, mkWorld d2 None [invalid_or_expired] None).
Proof.
  intros P ask complete d1 d2.
  refine (proj2 (newer_request_invalidates_older_token Toy.env second_draw
                   five_minutes_later ask ask complete Toy.store
                   "bob@example.com" Toy.bob _ (sample_tokens_fresh _)
                   eq_refl eq_refl eq_refl eq_refl)).
  vm_compute. discriminate.
Defined.

(** Bob completes ten minutes and a millisecond after asking. *)
Lemma late_completion_is_refused_witness :
  let P := Toy.primitives in
  let ask := Toy.request None "" [("email", JStr "bob@example.com")] in
  let complete := mkRequest None "" (resetToken Toy.env)
                            [("newPassword", JStr "n3w")] "http" "localhost:8000" in
  let d1 := db (snd (asyncForgotPassword Toy.env ask (start Toy.store))) in
  asyncResetPassword too_late complete (start d1)
  = (Return, mkWorld d1 None [invalid_or_expired] None).
Proof.
  intros P ask complete d1.
  refine (proj1 (late_completion_is_refused Toy.env too_late ask complete
                   Toy.store "bob@example.com" Toy.bob (sample_tokens_fresh _)
                   eq_refl eq_refl eq_refl _)).
  reflexivity.
Defined.
